(** * Motor-ODM: the [Document] base class and its metaclass

    A shallow embedding of [motor_odm/document.py]: the [Mongo] inner-class
    inheritance performed by [DocumentMetaclass.__new__], the class-level
    collection cache of [Document.collection], the partial-document
    serialisation [Document.mongo], and the CRUD methods [insert],
    [replace], [update], [reload] and [find_one_and_replace].

    Python objects live in an explicit store; the MongoDB driver and the
    pydantic validator are interfaces (type classes) the methods call
    into, and so is the type of the [id] field, which a subclass may
    declare anew. *)

From stdpp Require Import gmap strings list fin_maps.

Set Default Proof Using "Type".

(** ** Python values and exceptions *)

(** [bson.ObjectId]: a 12-byte value, kept here as the number its bytes
    spell. *)
Record ObjectId := Oid { oid_value : N }.

Inductive pyval :=
| VNone
| VBool (b : bool)
| VInt (z : Z)
| VStr (s : string)
| VOid (o : ObjectId).

#[global] Instance ObjectId_eq_dec : EqDecision ObjectId.
Proof. solve_decision. Defined.
#[global] Instance pyval_eq_dec : EqDecision pyval.
Proof. solve_decision. Defined.

(** A BSON document, or any [Dict[str, Any]] handed to the driver. *)
Abbreviation Doc := (gmap string pyval).

(** ** Identifiers *)

(** The type of the [id] field.  [Document] declares it as [ObjectId],
    and lines 114-116 and 136-138 let a subclass declare it again with
    a type of its own.  The code needs three things of the type: the
    value the driver is handed for an identifier, the truth value of an
    identifier (line 223), and what the validator of the field makes of
    a stored value; an identifier is never [None], which is the field
    unset. *)
Class Identifier (Id : Type) := {
  ident_value : Id → pyval;
  ident_truth : Id → bool;
  ident_read : pyval → option Id;
  ident_value_set : ∀ i, ident_value i ≠ VNone
}.
#[global] Hint Mode Identifier ! : typeclass_instances.

(** [ObjectId] defines neither [__bool__] nor [__len__]: every
    [ObjectId] is true. *)
#[global, refine] Instance ObjectId_identifier : Identifier ObjectId := {|
  ident_value := VOid;
  ident_truth _ := true;
  ident_read v := match v with VOid o => Some o | _ => None end
|}.
Proof. done. Defined.

(** [id: int]: an integer is true unless it is [0]. *)
#[global, refine] Instance int_identifier : Identifier Z := {|
  ident_value := VInt;
  ident_truth z := bool_decide (z ≠ 0%Z);
  ident_read v := match v with VInt z => Some z | _ => None end
|}.
Proof. done. Defined.

(** [id: str]: a string is true unless it is empty. *)
#[global, refine] Instance str_identifier : Identifier string := {|
  ident_value := VStr;
  ident_truth s := bool_decide (s ≠ EmptyString);
  ident_read v := match v with VStr s => Some s | _ => None end
|}.
Proof. done. Defined.

Inductive exn :=
| TypeError (msg : string)
| AssertionError
| AttributeError (msg : string)
| ValidationError (msg : string)
| DriverError (msg : string).

#[global] Instance exn_eq_dec : EqDecision exn.
Proof. solve_decision. Defined.

(** ** The [Mongo] inner class *)

(** The option objects of bson and pymongo.  The code only ever passes
    them on, so a few identifying fields are enough. *)
Record CodecOptions := mkCodecOptions { tz_aware : bool; uuid_representation : N }.
Inductive ReadPreference :=
| PRIMARY | PRIMARY_PREFERRED | SECONDARY | SECONDARY_PREFERRED | NEAREST.
Record WriteConcern := mkWriteConcern { wc_w : Z; wc_j : bool }.
Record ReadConcern := mkReadConcern { rc_level : string }.

#[global] Instance CodecOptions_eq_dec : EqDecision CodecOptions.
Proof. solve_decision. Defined.
#[global] Instance ReadPreference_eq_dec : EqDecision ReadPreference.
Proof. solve_decision. Defined.
#[global] Instance WriteConcern_eq_dec : EqDecision WriteConcern.
Proof. solve_decision. Defined.
#[global] Instance ReadConcern_eq_dec : EqDecision ReadConcern.
Proof. solve_decision. Defined.

(** The attributes of a [Mongo] class as attribute lookup sees them.
    [None] is an attribute that is null: [MongoBase] only annotates
    [collection] and sets the other four to [None], and the code reads
    both as "not configured" ([hasattr(mongo, "collection")] for the
    first, the driver's defaults for the rest). *)
Record Mongo := mkMongo {
  collection : option string;
  codec_options : option CodecOptions;
  read_preference : option ReadPreference;
  write_concern : option WriteConcern;
  read_concern : option ReadConcern
}.

#[global] Instance Mongo_eq_dec : EqDecision Mongo.
Proof. solve_decision. Defined.

Definition MongoBase : Mongo := mkMongo None None None None None.

(** The five configuration fields, and a uniform reader for them. *)
Inductive MongoField :=
| F_collection | F_codec_options | F_read_preference | F_write_concern | F_read_concern.

Inductive MongoValue :=
| MV_collection (s : string)
| MV_codec_options (c : CodecOptions)
| MV_read_preference (r : ReadPreference)
| MV_write_concern (w : WriteConcern)
| MV_read_concern (r : ReadConcern).

Definition mongo_attr (f : MongoField) (m : Mongo) : option MongoValue :=
  match f with
  | F_collection => MV_collection <$> collection m
  | F_codec_options => MV_codec_options <$> codec_options m
  | F_read_preference => MV_read_preference <$> read_preference m
  | F_write_concern => MV_write_concern <$> write_concern m
  | F_read_concern => MV_read_concern <$> read_concern m
  end.

(** [hasattr(mongo, "collection")] *)
Definition has_collection (m : Mongo) : bool := bool_decide (collection m ≠ None).

(** One attribute of the merged class: the primary class's value unless
    it is null. *)
Definition override {A} (own parent : option A) : option A :=
  match own with
  | Some v => Some v
  | None => parent
  end.

(** Modelled from the spec: [inherit_class] of [motor_odm/helpers.py],
    a module of the repository whose source is not available.  The spec (3, 4.1) has it
    overlay the primary class [self] on the secondary class field by
    field, a null field meaning "inherit"; with no primary class the
    result carries the secondary class's attributes. *)
Definition inherit_class (name : string) (self : option Mongo) (parent : Mongo) : Mongo :=
  match self with
  | None => parent
  | Some own =>
      {| collection := override (collection own) (collection parent);
         codec_options := override (codec_options own) (codec_options parent);
         read_preference := override (read_preference own) (read_preference parent);
         write_concern := override (write_concern own) (write_concern parent);
         read_concern := override (read_concern own) (read_concern parent) |}
  end.

(** ** Classes *)

(** A class is identified by [(__module__, __qualname__)], the pair the
    metaclass itself uses to recognise [Document]. *)
Abbreviation ClassId := (string * string)%type.

(** A pydantic field: its name, its alias and its default ([None] for a
    required field). *)
Record FieldInfo := mkField {
  f_name : string;
  f_alias : string;
  f_default : option pyval
}.

(** The part of a class object the code looks at. [c_mro] is [__mro__],
    the class itself first; [c_mongo] is the [__mongo__] attribute, which
    only classes made by [DocumentMetaclass] carry; [c_fields] is
    pydantic's [__fields__] without the [id] field. *)
Record PyClass := mkClass {
  c_id : ClassId;
  c_mro : list ClassId;
  c_mongo : option Mongo;
  c_fields : list FieldInfo
}.

Definition object_id : ClassId := ("builtins", "object").
Definition BaseModel_id : ClassId := ("pydantic.main", "BaseModel").
Definition Document_id : ClassId := ("motor_odm.document", "Document").

Definition BaseModel : PyClass :=
  {| c_id := BaseModel_id; c_mro := [BaseModel_id; object_id];
     c_mongo := None; c_fields := [] |}.

(** [issubclass(c, d)] *)
Definition issubclass (c : PyClass) (d : ClassId) : bool := bool_decide (d ∈ c_mro c).

(** *** Method resolution order

    [type.__new__] linearises the bases with the C3 merge and refuses
    the class when no consistent order exists. *)

Definition in_tail (c : ClassId) (seqs : list (list ClassId)) : bool :=
  existsb (λ s, bool_decide (c ∈ tail s)) seqs.

Definition c3_candidate (seqs : list (list ClassId)) : option ClassId :=
  find (λ c, negb (in_tail c seqs)) (omap head seqs).

Definition c3_drop (c : ClassId) (s : list ClassId) : list ClassId :=
  match s with
  | h :: t => if decide (h = c) then t else s
  | [] => []
  end.

Definition nonempty (s : list ClassId) : bool :=
  match s with [] => false | _ => true end.

Fixpoint c3_merge (fuel : nat) (seqs : list (list ClassId)) : option (list ClassId) :=
  match filter (λ s, nonempty s = true) seqs with
  | [] => Some []
  | live =>
      match fuel with
      | O => None
      | S n =>
          c ← c3_candidate live;
          (c ::.) <$> c3_merge n (c3_drop c <$> live)
      end
  end.

Definition linearize (cid : ClassId) (bases : list PyClass) : option (list ClassId) :=
  let seqs := (c_mro <$> bases) ++ [c_id <$> bases] in
  (cid ::.) <$> c3_merge (S (length (concat seqs))) seqs.

(** The class body as the metaclass receives it: the keys of [namespace]
    that [__new__] reads, the class's identity, and the field table
    pydantic derives from the annotations. *)
Record Namespace := mkNamespace {
  ns_module : string;
  ns_qualname : string;
  ns_Mongo : option Mongo;
  ns_fields : list FieldInfo
}.

(** [super().__new__(mcs, name, bases, {"__mongo__": mongo, **namespace})]:
    pydantic's [ModelMetaclass] and, below it, [type.__new__]. *)
Definition ModelMetaclass_new (name : string) (bases : list PyClass)
    (mongo : Mongo) (namespace : Namespace) : exn + PyClass :=
  match linearize (ns_module namespace, ns_qualname namespace) bases with
  | None => inl (TypeError "Cannot create a consistent method resolution order (MRO)")
  | Some mro =>
      inr {| c_id := (ns_module namespace, ns_qualname namespace);
             c_mro := mro;
             c_mongo := Some mongo;
             c_fields := ns_fields namespace |}
  end.

(** *** [DocumentMetaclass.__new__] *)

(** [base != BaseModel and base != Document and issubclass(base, Document)] *)
Definition is_document_subclass (base : PyClass) : bool :=
  bool_decide (c_id base ≠ BaseModel_id)
  && bool_decide (c_id base ≠ Document_id)
  && issubclass base Document_id.

(** One turn of the loop over [reversed(bases)]. *)
Definition inherit_base (mongo : Mongo) (base : PyClass) : Mongo :=
  if is_document_subclass base
  then inherit_class "Mongo" (c_mongo base) mongo
  else mongo.

(** The value of [mongo] after line 98. *)
Definition merged_mongo (bases : list PyClass) (namespace : Namespace) : Mongo :=
  let mongo := foldl inherit_base MongoBase (reverse bases) in
  inherit_class "Mongo" (ns_Mongo namespace) mongo.

Definition is_Document_namespace (namespace : Namespace) : bool :=
  bool_decide ((ns_module namespace, ns_qualname namespace) = Document_id).

Definition DocumentMetaclass_new (name : string) (bases : list PyClass)
    (namespace : Namespace) : exn + PyClass :=
  let mongo := merged_mongo bases namespace in
  if negb (is_Document_namespace namespace) && negb (has_collection mongo)
  then inl (TypeError (name +:+ " does not define a collection."))
  else ModelMetaclass_new name bases mongo namespace.

(** The class statement of [Document] itself. *)
Definition Document_namespace : Namespace :=
  {| ns_module := "motor_odm.document"; ns_qualname := "Document";
     ns_Mongo := None; ns_fields := [] |}.

Definition Document : PyClass :=
  {| c_id := Document_id;
     c_mro := [Document_id; BaseModel_id; object_id];
     c_mongo := Some MongoBase;
     c_fields := [] |}.



(** [AgnosticDatabase] objects are told apart by identity. *)
Abbreviation Db := nat.
(** A cursor of the driver, told apart by identity. *)
Abbreviation Cursor := nat.
(** The [*args, **kwargs] every method forwards to the driver. *)
Abbreviation Kwargs := (list (string * pyval)).
(** An update specification such as [{"$set": {...}}]. *)
Abbreviation UpdateSpec := (gmap string (gmap string pyval)).

(** Closed decidable statements are settled by evaluation. *)
Ltac decide_closed := apply (bool_decide_unpack _); vm_compute; exact I.

(** ** The store of Python objects *)

(** From here on the development is about one type [Id] of
    identifiers: the one the [Document] classes at hand declare. *)
Section Model.
Context {Id : Type} `{!Identifier Id}.

(** The truth of an [id] attribute: [None] is false. *)
Definition truth (v : option Id) : bool :=
  match v with
  | Some i => ident_truth i
  | None => false
  end.

(** The [__dict__] of a [Document] instance: the [id] field, with
    default [None], and the items of the fields a subclass declares, in
    declaration order. *)
Record InstDict := mkDict {
  d_id : option Id;
  d_fields : list (string * pyval)
}.

(** An instance: its class and the address of its [__dict__]. *)
Record Instance := mkInstance {
  o_class : PyClass;
  o_dict : nat
}.

(** An [AgnosticCollection] as [Database.get_collection] builds it. *)
Record Collection := mkCollection {
  database : Db;
  coll_name : string;
  coll_codec_options : option CodecOptions;
  coll_read_preference : option ReadPreference;
  coll_write_concern : option WriteConcern;
  coll_read_concern : option ReadConcern
}.

#[global] Instance Collection_eq_dec : EqDecision Collection.
Proof. solve_decision. Defined.

Definition get_collection (db : Db) (name : string)
    (codec : option CodecOptions) (rp : option ReadPreference)
    (wc : option WriteConcern) (rc : option ReadConcern) : Collection :=
  mkCollection db name codec rp wc rc.

(** The attributes the code sets on class objects at run time: a class's
    own [__db__] and [__collection__] ([None]: the class has none of its
    own, and lookup goes on along the MRO). *)
Record ClassAttrs := mkClassAttrs {
  a_db : option Db;
  a_collection : option Collection
}.

(** What the driver hands back. *)
Record InsertOneResult := mkInsertOneResult { inserted_id : Id }.
Record UpdateResult := mkUpdateResult {
  matched_count : Z;
  modified_count : Z;
  upserted_id : option Id
}.

(** The requests sent to the driver, oldest first. *)
Inductive Request :=
| InsertOne (c : Collection) (document : Doc) (kw : Kwargs)
| ReplaceOne (c : Collection) (filter replacement : Doc) (kw : Kwargs)
| UpdateOne (c : Collection) (filter : Doc) (update : UpdateSpec) (kw : Kwargs)
| FindOne (c : Collection) (filter : option Doc) (kw : Kwargs)
| FindOneAndReplace (c : Collection) (filter replacement : Doc)
    (return_document : bool) (kw : Kwargs).

(** The collection methods of the driver, each a step on the state [S]
    of the database behind it that may raise. *)
Class Driver (S : Type) := {
  insert_one : Collection → Doc → Kwargs → S → (exn + InsertOneResult) * S;
  replace_one : Collection → Doc → Doc → Kwargs → S → (exn + UpdateResult) * S;
  update_one : Collection → Doc → UpdateSpec → Kwargs → S → (exn + UpdateResult) * S;
  find_one : Collection → option Doc → Kwargs → S → (exn + option Doc) * S;
  find_one_and_replace :
    Collection → Doc → Doc → bool → Kwargs → S → (exn + option Doc) * S
}.

(** pydantic's validation of a raw mapping into the [__dict__] of a new
    instance of the class: the call of [cls] on the unpacked mapping [doc]. *)
Class Validator := {
  validate : PyClass → Doc → exn + InstDict
}.

Record World (S : Type) := mkWorld {
  w_classes : gmap ClassId ClassAttrs;
  w_objects : gmap nat Instance;
  w_dicts : gmap nat InstDict;
  w_log : list Request;
  w_store : S
}.
#[global] Arguments mkWorld {S}.
#[global] Arguments w_classes {S}.
#[global] Arguments w_objects {S}.
#[global] Arguments w_dicts {S}.
#[global] Arguments w_log {S}.
#[global] Arguments w_store {S}.

(** A computation on the world that returns or raises; an exception
    keeps the changes made before it. *)
Definition M (S A : Type) : Type := World S → (exn + A) * World S.

Definition ret {S A} (a : A) : M S A := λ w, (inr a, w).
Definition raise {S A} (e : exn) : M S A := λ w, (inl e, w).
Definition bind {S A B} (c : M S A) (k : A → M S B) : M S B :=
  λ w, match c w with
       | (inl e, w') => (inl e, w')
       | (inr a, w') => k a w'
       end.
Definition gets {S A} (f : World S → A) : M S A := λ w, (inr (f w), w).
Definition modify {S} (f : World S → World S) : M S () := λ w, (inr (), f w).
Definition lift {S A} (r : exn + A) : M S A :=
  match r with inl e => raise e | inr a => ret a end.

Declare Scope py_scope.
Delimit Scope py_scope with py.
Notation "'let*' x := c 'in' k" := (bind c (λ x, k))
  (at level 10, x name, c at level 100, k at level 200) : py_scope.
Open Scope py_scope.

(** [assert b] *)
Definition py_assert {S} (b : bool) : M S () :=
  if b then ret () else raise AssertionError.

Section Heap.
Context {S : Type}.

Definition with_classes (f : gmap ClassId ClassAttrs → gmap ClassId ClassAttrs)
    (w : World S) : World S :=
  mkWorld (f (w_classes w)) (w_objects w) (w_dicts w) (w_log w) (w_store w).
Definition with_objects (f : gmap nat Instance → gmap nat Instance)
    (w : World S) : World S :=
  mkWorld (w_classes w) (f (w_objects w)) (w_dicts w) (w_log w) (w_store w).
Definition with_dicts (f : gmap nat InstDict → gmap nat InstDict)
    (w : World S) : World S :=
  mkWorld (w_classes w) (w_objects w) (f (w_dicts w)) (w_log w) (w_store w).

(** Attribute lookup on a class: the first class of the MRO that has
    the attribute of its own. *)
Fixpoint lookup_mro {A} (proj : ClassAttrs → option A)
    (attrs : gmap ClassId ClassAttrs) (mro : list ClassId) : option A :=
  match mro with
  | [] => None
  | c :: rest =>
      match attrs !! c ≫= proj with
      | Some v => Some v
      | None => lookup_mro proj attrs rest
      end
  end.

(** [cls.__db__] when [hasattr(cls, "__db__")] *)
Definition class_db (w : World S) (cls : PyClass) : option Db :=
  lookup_mro a_db (w_classes w) (c_mro cls).
(** [cls.__collection__]; the attribute of [Document] itself is [None] *)
Definition class_collection (w : World S) (cls : PyClass) : option Collection :=
  lookup_mro a_collection (w_classes w) (c_mro cls).

Definition own_attrs (attrs : gmap ClassId ClassAttrs) (c : ClassId) : ClassAttrs :=
  default (mkClassAttrs None None) (attrs !! c).

(** [cls.__db__ = db] *)
Definition set_class_db (cls : PyClass) (db : Db) : M S () :=
  modify (with_classes (λ attrs,
    <[c_id cls := mkClassAttrs (Some db) (a_collection (own_attrs attrs (c_id cls)))]> attrs)).
(** [cls.__collection__ = h] *)
Definition set_class_collection (cls : PyClass) (h : Collection) : M S () :=
  modify (with_classes (λ attrs,
    <[c_id cls := mkClassAttrs (a_db (own_attrs attrs (c_id cls))) (Some h)]> attrs)).

(** The instance behind a reference, and the [__dict__] it points to. *)
Definition instance_of (w : World S) (r : nat) : option Instance := w_objects w !! r.
Definition dict_of (w : World S) (r : nat) : option InstDict :=
  o ← w_objects w !! r; w_dicts w !! o_dict o.
(** [r.id] *)
Definition id_of (w : World S) (r : nat) : option Id :=
  dict_of w r ≫= d_id.

Definition get_instance (r : nat) : M S Instance :=
  λ w, match instance_of w r with
       | Some o => (inr o, w)
       | None => (inl (TypeError "not an object"), w)
       end.
Definition get_dict (r : nat) : M S InstDict :=
  λ w, match dict_of w r with
       | Some d => (inr d, w)
       | None => (inl (TypeError "not an object"), w)
       end.

(** [r.id = v]: with [validate_assignment] the value goes through the
    validator of the field's type (for [ObjectId] the one of lines
    43-60), which returns an identifier of that type as it is given,
    and [None] is let through; the entry of [__dict__] is then
    overwritten in place. *)
Definition set_id (r : nat) (v : option Id) : M S () :=
  let* o := get_instance r in
  let* d := get_dict r in
  modify (with_dicts (<[o_dict o := mkDict v (d_fields d)]>)).

(** [object.__setattr__(r, "__dict__", other.__dict__)] *)
Definition set_dict (r other : nat) : M S () :=
  let* o := get_instance r in
  let* o' := get_instance other in
  modify (with_objects (<[r := mkInstance (o_class o) (o_dict o')]>)).

(** A new instance of [cls] with a new [__dict__]. *)
Definition new_instance (cls : PyClass) (d : InstDict) : M S nat :=
  λ w, let r := fresh (dom (w_objects w)) in
       let a := fresh (dom (w_dicts w)) in
       (inr r, with_dicts (<[a := d]>) (with_objects (<[r := mkInstance cls a]>) w)).

(** [isinstance(r, cls)] *)
Definition isinstance (w : World S) (r : nat) (cid : ClassId) : bool :=
  match instance_of w r with
  | Some o => issubclass (o_class o) cid
  | None => false
  end.
End Heap.

(** ** Serialisation *)

(** [id: ObjectId = Field(None, alias="_id")] *)
Definition id_field : FieldInfo := mkField "id" "_id" (Some VNone).

(** [__fields__] of a class. *)
Definition model_fields (cls : PyClass) : list FieldInfo := id_field :: c_fields cls.

Definition find_field (fields : list FieldInfo) (name : string) : option FieldInfo :=
  find (λ f, bool_decide (f_name f = name)) fields.

Definition id_value (d : InstDict) : pyval :=
  match d_id d with
  | Some i => ident_value i
  | None => VNone
  end.

(** [self.__dict__.items()] *)
Definition dict_items (d : InstDict) : list (string * pyval) :=
  ("id", id_value d) :: d_fields d.

(** The keys [include] and [exclude] leave in. *)
Definition allowed_key (include exclude : option (gset string)) (k : string) : bool :=
  match include with None => true | Some s => bool_decide (k ∈ s) end
  && match exclude with None => true | Some s => bool_decide (k ∉ s) end.

(** The field holds its declared default. *)
Definition holds_default (fields : list FieldInfo) (k : string) (v : pyval) : bool :=
  match find_field fields k with
  | Some f => bool_decide (f_default f = Some v)
  | None => false
  end.

(** The key a field is written under with [by_alias=True]. *)
Definition dict_key (fields : list FieldInfo) (k : string) : string :=
  match find_field fields k with
  | Some f => f_alias f
  | None => k
  end.

(** pydantic's [BaseModel.dict] called with [by_alias=True] and
    [exclude_defaults=True], a function of the library: it walks the
    items of [__dict__], skips a key the filters leave out and a field
    whose value equals its declared default, and writes every other
    value under the alias of its field.  The spec (4.3) describes the
    same projection. *)
Definition BaseModel_dict (fields : list FieldInfo) (d : InstDict)
    (include exclude : option (gset string)) : Doc :=
  foldl (λ (document : Doc) '(k, v),
           if allowed_key include exclude k && negb (holds_default fields k v)
           then <[dict_key fields k := v]> document
           else document)
        ∅ (dict_items d).

(** [Document.mongo] on an instance of [cls] whose [__dict__] is [d]. *)
Definition Document_mongo (cls : PyClass) (d : InstDict)
    (include exclude : option (gset string)) : Doc :=
  let document := BaseModel_dict (model_fields cls) d include exclude in
  if bool_decide (d_id d = None) then delete "_id" document else document.

(** ** The methods of [Document] *)

Section Methods.
Context {S : Type} `{!Driver S} `{!Validator}.

(** A call into the driver: the request is sent, the database moves
    on, and the call returns or raises. *)
Definition send {A} (req : Request) (op : S → (exn + A) * S) : M S A :=
  λ w, let '(r, s') := op (w_store w) in
       (r, mkWorld (w_classes w) (w_objects w) (w_dicts w) (w_log w ++ [req]) s').

Definition Document_use (cls : PyClass) (db : option Db) : M S () :=
  match db with
  | None => raise AssertionError
  | Some d => set_class_db cls d
  end.

Definition Document_db (cls : PyClass) : M S Db :=
  let* found := gets (λ w, class_db w cls) in
  match found with
  | None => raise (AttributeError "Accessing database without using it first.")
  | Some d => ret d
  end.

(** [cls.__mongo__] *)
Definition class_mongo (cls : PyClass) : M S Mongo :=
  match c_mongo cls with
  | Some m => ret m
  | None => raise (AttributeError "__mongo__")
  end.

Definition Document_collection (cls : PyClass) : M S (option Collection) :=
  let* meta := class_mongo cls in
  let* cached := gets (λ w, class_collection w cls) in
  let* stale :=
    match cached with
    | None => ret true
    | Some h => let* d := Document_db cls in ret (bool_decide (database h ≠ d))
    end in
  let* _ :=
    if stale then
      let* d := Document_db cls in
      let* name :=
        match collection meta with
        | Some n => ret n
        | None => raise (AttributeError "collection")
        end in
      set_class_collection cls
        (get_collection d name (codec_options meta) (read_preference meta)
           (write_concern meta) (read_concern meta))
    else ret () in
  gets (λ w, class_collection w cls).

(** [cls.collection()] as the receiver of a driver method: calling a
    method on [None] is an [AttributeError]. *)
Definition bound_collection (cls : PyClass) : M S Collection :=
  let* c := Document_collection cls in
  match c with
  | Some h => ret h
  | None => raise (AttributeError "'NoneType' object has no attribute")
  end.

(** [r.mongo()] *)
Definition mongo_of (r : nat) : M S Doc :=
  let* o := get_instance r in
  let* d := get_dict r in
  ret (Document_mongo (o_class o) d None None).

(** [r.id] *)
Definition get_id (r : nat) : M S (option Id) :=
  let* d := get_dict r in ret (d_id d).

(** The call of [cls] on an unpacked mapping: unpacking [None] is a
    [TypeError]; otherwise pydantic validates the mapping and a new
    instance is made. *)
Definition construct (cls : PyClass) (doc : option Doc) : M S nat :=
  match doc with
  | None => raise (TypeError "argument after ** must be a mapping, not NoneType")
  | Some raw => let* d := lift (validate cls raw) in new_instance cls d
  end.

Definition Document_insert (self : nat) (kw : Kwargs) : M S () :=
  let* o := get_instance self in
  let* h := bound_collection (o_class o) in
  let* document := mongo_of self in
  let* result := send (InsertOne h document kw) (insert_one h document kw) in
  set_id self (Some (inserted_id result)).

(** [if result.upserted_id:] on line 223 tests the truth of the
    attribute, so [None] and the identifiers that are false ([0], the
    empty string) go on to the [elif] of line 225, which tests
    [replace.id is None]. *)
Definition Document_replace (self other : nat) (kw : Kwargs) : M S nat :=
  let* o := get_instance self in
  let* h := bound_collection (o_class o) in
  let* filter := mongo_of self in
  let* replacement := mongo_of other in
  let* result :=
    send (ReplaceOne h filter replacement kw) (replace_one h filter replacement kw) in
  let* _ :=
    if truth (upserted_id result) then set_id other (upserted_id result)
    else
      let* rid := get_id other in
      match rid with
      | None => let* sid := get_id self in set_id other sid
      | Some _ => ret ()
      end in
  ret other.

Definition Document_reload (self : nat) (kw : Kwargs) : M S () :=
  let* sid := get_id self in
  match sid with
  | None => raise AssertionError
  | Some i =>
      let* o := get_instance self in
      let* h := bound_collection (o_class o) in
      let filter : Doc := {["_id" := ident_value i]} in
      let* found := send (FindOne h (Some filter) kw) (find_one h (Some filter) kw) in
      let* updated := construct (o_class o) found in
      set_dict self updated
  end.

Definition Document_update (self : nat) (update : UpdateSpec) (reload : bool)
    (kw : Kwargs) : M S bool :=
  let* sid := get_id self in
  match sid with
  | None => raise AssertionError
  | Some i =>
      let* o := get_instance self in
      let* h := bound_collection (o_class o) in
      let filter : Doc := {["_id" := ident_value i]} in
      let* result := send (UpdateOne h filter update kw) (update_one h filter update kw) in
      let* _ := if reload then Document_reload self [] else ret () in
      ret (bool_decide (modified_count result = 1%Z))
  end.

(** [replacement] is a mapping ([inl]) or an object ([inr]);
    [return_document] is [true] for [ReturnDocument.AFTER].  An object
    that is no [Document] reaches the driver as it is, and the driver
    refuses what is not a mapping before it sends anything. *)
Definition Document_find_one_and_replace (cls : PyClass) (filter : Doc)
    (replacement : Doc + nat) (return_document : bool) (kw : Kwargs)
    : M S (option nat) :=
  let* data :=
    match replacement with
    | inl d => ret (Some d)
    | inr r =>
        let* is_doc := gets (λ w, isinstance w r Document_id) in
        if is_doc then let* d := mongo_of r in ret (Some d) else ret None
    end in
  let* h := bound_collection cls in
  let* result :=
    match data with
    | Some d =>
        send (FindOneAndReplace h filter d return_document kw)
             (find_one_and_replace h filter d return_document kw)
    | None => raise (TypeError "replacement must be an instance of dict")
    end in
  match result with
  | None => ret None
  | Some raw =>
      let* instance := construct cls (Some raw) in
      let* same_type :=
        match replacement with
        | inl _ => ret false
        | inr r => gets (λ w, isinstance w r (c_id cls))
        end in
      if return_document && same_type then
        match replacement with
        | inr r => let* _ := set_dict r instance in ret (Some r)
        | inl _ => ret (Some instance)
        end
      else ret (Some instance)
  end.
End Methods.

(** ** A scripted driver and a plain validator

    Stand-ins for the two collaborators, in the manner of a test double:
    the driver answers each call with the next reply of a script, the
    validator reads the fields off the mapping without coercion. *)

Inductive Reply :=
| Inserted (r : InsertOneResult)
| Updated (r : UpdateResult)
| Found (d : option Doc)
| Raises (e : exn).

Definition next_reply {A} (pick : Reply → option A) (script : list Reply)
    : (exn + A) * list Reply :=
  match script with
  | [] => (inl (DriverError "no reply scripted"), [])
  | Raises e :: rest => (inl e, rest)
  | r :: rest =>
      match pick r with
      | Some a => (inr a, rest)
      | None => (inl (DriverError "unexpected reply"), rest)
      end
  end.

Definition pick_inserted (r : Reply) : option InsertOneResult :=
  match r with Inserted x => Some x | _ => None end.
Definition pick_updated (r : Reply) : option UpdateResult :=
  match r with Updated x => Some x | _ => None end.
Definition pick_found (r : Reply) : option (option Doc) :=
  match r with Found x => Some x | _ => None end.

#[global] Instance scripted_driver : Driver (list Reply) := {|
  insert_one _ _ _ := next_reply pick_inserted;
  replace_one _ _ _ _ := next_reply pick_updated;
  update_one _ _ _ _ := next_reply pick_updated;
  find_one _ _ _ := next_reply pick_found;
  find_one_and_replace _ _ _ _ _ := next_reply pick_found
|}.

Fixpoint read_fields (fields : list FieldInfo) (raw : Doc) : exn + list (string * pyval) :=
  match fields with
  | [] => inr []
  | f :: rest =>
      match override (raw !! f_alias f) (override (raw !! f_name f) (f_default f)) with
      | None => inl (ValidationError (f_name f))
      | Some v =>
          match read_fields rest raw with
          | inl e => inl e
          | inr items => inr ((f_name f, v) :: items)
          end
      end
  end.

Definition read_id (raw : Doc) : exn + option Id :=
  match override (raw !! "_id") (raw !! "id") with
  | None | Some VNone => inr None
  | Some v =>
      match ident_read v with
      | Some i => inr (Some i)
      | None => inl (ValidationError "id")
      end
  end.

#[global] Instance plain_validator : Validator := {|
  validate cls raw :=
    match read_id raw with
    | inl e => inl e
    | inr i =>
        match read_fields (c_fields cls) raw with
        | inl e => inl e
        | inr items => inr (mkDict i items)
        end
    end
|}.

(** Two record types for the examples: [User] below [Document], and
    [Admin] below [User] with a collection of its own. *)
Definition User_namespace : Namespace :=
  {| ns_module := "app.models"; ns_qualname := "User";
     ns_Mongo := Some (mkMongo (Some "users") None (Some SECONDARY) None None);
     ns_fields := [mkField "name" "name" None; mkField "age" "years" (Some (VInt 0))] |}.

Definition Admin_namespace : Namespace :=
  {| ns_module := "app.models"; ns_qualname := "Admin";
     ns_Mongo := Some (mkMongo (Some "admins") None None
                         (Some (mkWriteConcern 1 true)) None);
     ns_fields := [mkField "name" "name" None; mkField "age" "years" (Some (VInt 0))] |}.

Definition User : PyClass :=
  {| c_id := ("app.models", "User");
     c_mro := [("app.models", "User"); Document_id; BaseModel_id; object_id];
     c_mongo := Some (mkMongo (Some "users") None (Some SECONDARY) None None);
     c_fields := ns_fields User_namespace |}.

Definition Admin : PyClass :=
  {| c_id := ("app.models", "Admin");
     c_mro := [("app.models", "Admin"); ("app.models", "User");
               Document_id; BaseModel_id; object_id];
     c_mongo := Some (mkMongo (Some "admins") None (Some SECONDARY)
                        (Some (mkWriteConcern 1 true)) None);
     c_fields := ns_fields Admin_namespace |}.

(** A world with nothing in it but the script of the driver. *)
Definition empty_world (script : list Reply) : World (list Reply) :=
  mkWorld ∅ ∅ ∅ [] script.

(** The world after running [c], whatever it returned. *)
Definition after {S A} (c : M S A) (w : World S) : World S := (c w).2.

(** ** Vocabulary of the statements *)







Section Vocabulary.
Context {S : Type}.

(** Two worlds with the same objects, log and database. *)
Definition same_heap (w w1 : World S) : Prop :=
  w_objects w1 = w_objects w ∧ w_dicts w1 = w_dicts w
  ∧ w_log w1 = w_log w ∧ w_store w1 = w_store w.

(** A computation only ever appends to the log of requests. *)
Definition log_grows {A} (c : M S A) : Prop :=
  ∀ w r w', c w = (r, w') → ∃ rest, w_log w' = w_log w ++ rest.

(** What [find_one_and_replace] hands to the driver as replacement. *)
Definition replacement_data (w : World S) (replacement : Doc + nat) : option Doc :=
  match replacement with
  | inl document => Some document
  | inr r =>
      if isinstance w r Document_id
      then o ← instance_of w r; d ← dict_of w r;
           Some (Document_mongo (o_class o) d None None)
      else None
  end.
End Vocabulary.

(** The worlds of the examples. *)

(** The handle [User.collection()] makes against the database object [1]. *)
Definition users_collection : Collection :=
  get_collection 1 "users" None (Some SECONDARY) None None.

(** [Document.use(db)] with the database object [1], then one [User]
    not yet stored. *)
Definition ada : InstDict := mkDict None [("name", VStr "ada"); ("age", VInt 36)].

Definition ada_world (script : list Reply) : World (list Reply) :=
  mkWorld {[Document_id := mkClassAttrs (Some 1) None]}
    {[0 := mkInstance User 0]} {[0 := ada]} [] script.

(** The same [User] stored under the identifier [i]. *)
Definition stored_ada (i : Id) : InstDict :=
  mkDict (Some i) [("name", VStr "ada"); ("age", VInt 36)].

(** The same with two instances of [User]: one stored, one new. *)
Definition pair_world (i : Id) (script : list Reply) : World (list Reply) :=
  mkWorld {[Document_id := mkClassAttrs (Some 1) None]}
    {[0 := mkInstance User 0; 1 := mkInstance User 1]}
    {[0 := stored_ada i; 1 := ada]} [] script.

(** The stored document after an update made elsewhere. *)
Definition fetched_ada (i : Id) : Doc :=
  {["_id" := ident_value i; "name" := VStr "ada"; "years" := VInt 40]}.

(** ** The remaining methods of [Document] *)

(** What the driver hands back for the calls below. *)
Record InsertManyResult := mkInsertManyResult { inserted_ids : list Id }.
Record DeleteResult := mkDeleteResult { deleted_count : Z }.

(** The other collection methods the code calls.  [find_cursor] is
    [collection.find], which hands back a cursor; [cursor_next] is one
    turn of [async for] over it, [None] when the cursor is exhausted.
    [delete_many] takes what [Document.delete_many] passes, a list of
    documents. *)
Class QueryDriver (S : Type) := {
  insert_many : Collection → list Doc → Kwargs → S → (exn + InsertManyResult) * S;
  delete_one : Collection → Doc → Kwargs → S → (exn + DeleteResult) * S;
  delete_many : Collection → list Doc → S → (exn + DeleteResult) * S;
  find_cursor : Collection → option Doc → Kwargs → S → (exn + Cursor) * S;
  cursor_next : Cursor → S → (exn + option Doc) * S;
  find_one_and_delete : Collection → option Doc → Kwargs → S → (exn + option Doc) * S;
  find_one_and_update :
    Collection → Doc → UpdateSpec → Kwargs → S → (exn + option Doc) * S;
  count_documents : Collection → Kwargs → S → (exn + Z) * S
}.

Section MoreMethods.
Context {S : Type} `{!Driver S} `{!QueryDriver S} `{!Validator}.

(** A call into the driver that only moves the database on. *)
Definition call {A} (op : S → (exn + A) * S) : M S A :=
  λ w, let '(r, s') := op (w_store w) in
       (r, mkWorld (w_classes w) (w_objects w) (w_dicts w) (w_log w) s').

(** [[obj.mongo() for obj in objects]] *)
Fixpoint mongo_of_all (objects : list nat) : M S (list Doc) :=
  match objects with
  | [] => ret []
  | obj :: rest =>
      let* document := mongo_of obj in
      let* documents := mongo_of_all rest in
      ret (document :: documents)
  end.

(** [for obj, inserted_id in pairs: obj.id = inserted_id] *)
Fixpoint assign_ids (pairs : list (nat * Id)) : M S () :=
  match pairs with
  | [] => ret ()
  | (obj, inserted_id) :: rest =>
      let* _ := set_id obj (Some inserted_id) in
      assign_ids rest
  end.

Definition Document_insert_many (cls : PyClass) (objects : list nat) (kw : Kwargs)
    : M S () :=
  let* h := bound_collection cls in
  let* documents := mongo_of_all objects in
  let* result := call (insert_many h documents kw) in
  assign_ids (zip objects (inserted_ids result)).

Definition Document_delete (self : nat) (kw : Kwargs) : M S bool :=
  let* o := get_instance self in
  let* h := bound_collection (o_class o) in
  let* filter := mongo_of self in
  let* result := call (delete_one h filter kw) in
  ret (bool_decide (deleted_count result = 1%Z)).

Definition Document_delete_many (cls : PyClass) (objects : list nat) : M S Z :=
  let* h := bound_collection cls in
  let* documents := mongo_of_all objects in
  let* result := call (delete_many h documents) in
  ret (deleted_count result).

(** [cls( **doc) if doc else None]: [None] and the empty mapping are
    both false. *)
Definition construct_if (cls : PyClass) (doc : option Doc) : M S (option nat) :=
  match doc with
  | None => ret None
  | Some raw =>
      if bool_decide (raw = ∅) then ret None
      else let* r := construct cls (Some raw) in ret (Some r)
  end.

Definition Document_find_one (cls : PyClass) (filter : option Doc) (kw : Kwargs)
    : M S (option nat) :=
  let* h := bound_collection cls in
  let* doc := send (FindOne h filter kw) (find_one h filter kw) in
  construct_if cls doc.

Definition Document_find_one_and_delete (cls : PyClass) (filter : option Doc)
    (kw : Kwargs) : M S (option nat) :=
  let* h := bound_collection cls in
  let* result := call (find_one_and_delete h filter kw) in
  construct_if cls result.

Definition Document_find_one_and_update (cls : PyClass) (filter : Doc)
    (update : UpdateSpec) (kw : Kwargs) : M S (option nat) :=
  let* h := bound_collection cls in
  let* result := call (find_one_and_update h filter update kw) in
  construct_if cls result.

Definition Document_count_documents (cls : PyClass) (kw : Kwargs) : M S Z :=
  let* h := bound_collection cls in
  call (count_documents h kw).

(** The body of the generator [context()] of [find] from the cursor on,
    run until it has yielded [n] instances or the cursor is exhausted:
    each turn takes one document from the cursor and yields the instance
    made from it. *)
Fixpoint cursor_take (n : nat) (cls : PyClass) (c : Cursor) : M S (list nat) :=
  match n with
  | O => ret []
  | Datatypes.S n' =>
      let* doc := call (cursor_next c) in
      match doc with
      | None => ret []
      | Some raw =>
          let* r := construct cls (Some raw) in
          let* rest := cursor_take n' cls c in
          ret (r :: rest)
      end
  end.

(** The first [n] instances of [cls.find(filter, ...)].  The generator
    does nothing before it is first asked for an instance; it then
    resolves the collection and opens the cursor. *)
Definition Document_find_take (n : nat) (cls : PyClass) (filter : option Doc)
    (kw : Kwargs) : M S (list nat) :=
  match n with
  | O => ret []
  | _ =>
      let* h := bound_collection cls in
      let* c := call (find_cursor h filter kw) in
      cursor_take n cls c
  end.
End MoreMethods.

(** *** A scripted driver for these calls *)

Inductive Answer :=
| InsertedMany (r : InsertManyResult)
| Deleted (r : DeleteResult)
| Opened (c : Cursor)
| Fetched (d : option Doc)
| Counted (n : Z)
| Fails (e : exn).

Definition next_answer {A} (pick : Answer → option A) (script : list Answer)
    : (exn + A) * list Answer :=
  match script with
  | [] => (inl (DriverError "no reply scripted"), [])
  | Fails e :: rest => (inl e, rest)
  | r :: rest =>
      match pick r with
      | Some a => (inr a, rest)
      | None => (inl (DriverError "unexpected reply"), rest)
      end
  end.

Definition pick_inserted_many (r : Answer) : option InsertManyResult :=
  match r with InsertedMany x => Some x | _ => None end.
Definition pick_deleted (r : Answer) : option DeleteResult :=
  match r with Deleted x => Some x | _ => None end.
Definition pick_opened (r : Answer) : option Cursor :=
  match r with Opened x => Some x | _ => None end.
Definition pick_fetched (r : Answer) : option (option Doc) :=
  match r with Fetched x => Some x | _ => None end.
Definition pick_counted (r : Answer) : option Z :=
  match r with Counted x => Some x | _ => None end.

#[global] Instance scripted_queries : QueryDriver (list Answer) := {|
  insert_many _ _ _ := next_answer pick_inserted_many;
  delete_one _ _ _ := next_answer pick_deleted;
  delete_many _ _ := next_answer pick_deleted;
  find_cursor _ _ _ := next_answer pick_opened;
  cursor_next _ := next_answer pick_fetched;
  find_one_and_delete _ _ _ := next_answer pick_fetched;
  find_one_and_update _ _ _ _ := next_answer pick_fetched;
  count_documents _ _ := next_answer pick_counted
|}.

(** The world of [pair_world] over this driver. *)
Definition query_world (i : Id) (script : list Answer) : World (list Answer) :=
  mkWorld {[Document_id := mkClassAttrs (Some 1) None]}
    {[0 := mkInstance User 0; 1 := mkInstance User 1]}
    {[0 := stored_ada i; 1 := ada]} [] script.

(** *** Vocabulary of the further statements *)

Section MoreVocabulary.
Context {S : Type}.

(** The partial document of the instance behind a reference. *)
Definition document_of (w : World S) (r : nat) : option Doc :=
  o ← instance_of w r; d ← dict_of w r;
  Some (Document_mongo (o_class o) d None None).

(** Every object of [w] is in [w'] with the class and the state it
    had. *)
Definition keeps_objects (w w' : World S) : Prop :=
  (∀ r o, instance_of w r = Some o → instance_of w' r = Some o)
  ∧ (∀ r d, dict_of w r = Some d → dict_of w' r = Some d).

(** A computation that leaves every object and every [__dict__] as it
    found them, whether it returns or raises. *)
Definition heap_stable {A} (c : M S A) : Prop :=
  ∀ w, w_objects (after c w) = w_objects w ∧ w_dicts (after c w) = w_dicts w.

(** The address of the [__dict__] of the instance behind a reference. *)
Definition dict_address (w : World S) (r : nat) : option nat :=
  o_dict <$> instance_of w r.
End MoreVocabulary.

(** An instance the generator yielded: it did not exist in [w], and in
    [w'] it is an instance of [cls] whose state is a document as the
    validator read it. *)
Definition yielded {S : Type} `{!Validator} (cls : PyClass) (w w' : World S)
    (r : nat) : Prop :=
  instance_of w r = None
  ∧ o_class <$> instance_of w' r = Some cls
  ∧ ∃ raw d, validate cls raw = inr d ∧ dict_of w' r = Some d.

(** ** Bases, a diamond, and integer identifiers *)










(** A record type that declares [id: int = Field(None, alias="_id")],
    and two of its instances, stored under the identifiers [i] and
    [j]. *)
Definition Ticket_namespace : Namespace :=
  {| ns_module := "app.models"; ns_qualname := "Ticket";
     ns_Mongo := Some (mkMongo (Some "tickets") None None None None);
     ns_fields := [mkField "title" "title" None] |}.

Definition Ticket : PyClass :=
  {| c_id := ("app.models", "Ticket");
     c_mro := [("app.models", "Ticket"); Document_id; BaseModel_id; object_id];
     c_mongo := Some (mkMongo (Some "tickets") None None None None);
     c_fields := ns_fields Ticket_namespace |}.


(** The stored document of [fetched_ada] as a projection without [_id]
    returns it. *)
Definition projected_ada : Doc :=
  {["name" := VStr "ada"; "years" := VInt 40]}.

(** * Properties *)

(** ** The class statements of the examples *)

Lemma Document_declared :
  DocumentMetaclass_new "Document" [BaseModel] Document_namespace = inr Document.
Proof. vm_compute. reflexivity. Qed.

Lemma User_declared :
  DocumentMetaclass_new "User" [Document] User_namespace = inr User.
Proof. vm_compute. reflexivity. Qed.

Lemma Admin_declared :
  DocumentMetaclass_new "Admin" [User] Admin_namespace = inr Admin.
Proof. vm_compute. reflexivity. Qed.

Lemma Ticket_declared :
  DocumentMetaclass_new "Ticket" [Document] Ticket_namespace = inr Ticket.
Proof. vm_compute. reflexivity. Qed.

(** ** Configuration inheritance *)

Lemma override_None_r {A} (o : option A) : override o None = o.
Proof. by destruct o. Qed.


Lemma mongo_attr_inherit f name self parent :
  mongo_attr f (inherit_class name self parent)
  = override (self ≫= mongo_attr f) (mongo_attr f parent).
Proof.
  destruct self as [own|]; [|done].
  destruct f, own as [c co rp wc rc]; simpl;
    [destruct c|destruct co|destruct rp|destruct wc|destruct rc]; done.
Qed.















Lemma mongo_attr_MongoBase f : mongo_attr f MongoBase = None.
Proof. by destruct f. Qed.










(** With several bases the loop takes them last to first, so the first
    base is laid over the others and the class body over all. *)
Lemma merged_mongo_two_bases f b1 b2 m1 m2 namespace :
  is_document_subclass b1 = true → is_document_subclass b2 = true →
  c_mongo b1 = Some m1 → c_mongo b2 = Some m2 →
  mongo_attr f (merged_mongo [b1; b2] namespace)
  = override (ns_Mongo namespace ≫= mongo_attr f)
      (override (mongo_attr f m1) (mongo_attr f m2)).
Proof.
  intros H1 H2 Hm1 Hm2. unfold merged_mongo. simpl. unfold inherit_base.
  rewrite H1, H2, Hm1, Hm2. rewrite !mongo_attr_inherit. simpl.
  by rewrite mongo_attr_MongoBase, override_None_r.
Qed.

(** A type with no collection anywhere in its chain is refused. *)
Example no_collection_refused :
  DocumentMetaclass_new "Draft" [Document]
    (mkNamespace "app.models" "Draft" (Some (mkMongo None None (Some NEAREST) None None)) [])
  = inl (TypeError "Draft does not define a collection.").
Proof. vm_compute. reflexivity. Qed.

(** ** The partial document *)

Lemma dict_key_id cls : dict_key (model_fields cls) "id" = "_id".
Proof. reflexivity. Qed.

Lemma holds_default_id_None cls : holds_default (model_fields cls) "id" VNone = true.
Proof. reflexivity. Qed.

Lemma BaseModel_dict_lookup fields inc exc items : ∀ (acc : Doc) k v,
  NoDup (dict_key fields <$> items.*1) →
  foldl (λ (document : Doc) '(k, v),
           if allowed_key inc exc k && negb (holds_default fields k v)
           then <[dict_key fields k := v]> document
           else document) acc items !! k = Some v
  ↔ (∃ name, (name, v) ∈ items ∧ dict_key fields name = k
             ∧ allowed_key inc exc name = true ∧ holds_default fields name v = false)
    ∨ (acc !! k = Some v
       ∧ ∀ name v', (name, v') ∈ items → dict_key fields name = k →
                    allowed_key inc exc name && negb (holds_default fields name v') = false).
Proof.
  induction items as [|[n x] items IH]; intros acc k v Hnd.
  - simpl. split; [intros H; right; split; [done|]|].
    + by intros ?? ?%elem_of_nil.
    + intros [(? & ?%elem_of_nil & _)|[? _]]; done.
  - simpl in Hnd. apply NoDup_cons in Hnd as [Hfresh Hnd].
    simpl. rewrite IH by done. clear IH.
    assert (Hother : ∀ name v', (name, v') ∈ items → dict_key fields name ≠ dict_key fields n).
    { intros name v' Hin Heq. apply Hfresh. rewrite <- Heq.
      apply list_elem_of_fmap. exists name. split; [done|].
      apply list_elem_of_fmap. by exists (name, v'). }
    destruct (allowed_key inc exc n && negb (holds_default fields n x)) eqn:Hw.
    + apply andb_true_iff in Hw as [Ha Hd%negb_true_iff]. split.
      * intros [(name & Hin & Hk & Hal & Hdef)|[Hacc Hrest]].
        { left. exists name. split_and!; try done. by apply elem_of_cons; right. }
        destruct (decide (dict_key fields n = k)) as [<-|Hne].
        { rewrite lookup_insert_eq in Hacc. injection Hacc as <-.
          left. exists n. split_and!; try done. apply list_elem_of_here. }
        rewrite lookup_insert_ne in Hacc by done.
        right. split; [done|]. intros name v' [Heq|Hin]%elem_of_cons Hk.
        { injection Heq as -> ->. done. }
        by eapply Hrest.
      * intros [(name & [Heq|Hin]%elem_of_cons & Hk & Hal & Hdef)|[Hacc Hrest]].
        { injection Heq as -> ->. right. split; [by rewrite <- Hk, lookup_insert_eq|].
          intros name v' Hin Hk'. exfalso. eapply Hother; [done|]. congruence. }
        { left. by exists name. }
        right. split.
        { destruct (decide (dict_key fields n = k)) as [Heq|Hne].
          - specialize (Hrest n x (list_elem_of_here _ _) Heq).
            rewrite Ha, Hd in Hrest. done.
          - by rewrite lookup_insert_ne. }
        intros name v' Hin Hk. apply (Hrest name v'); [|done]. by apply elem_of_cons; right.
    + split.
      * intros [(name & Hin & Hk & Hal & Hdef)|[Hacc Hrest]].
        { left. exists name. split_and!; try done. by apply elem_of_cons; right. }
        right. split; [done|]. intros name v' [Heq|Hin]%elem_of_cons Hk.
        { by injection Heq as -> ->. }
        by eapply Hrest.
      * intros [(name & [Heq|Hin]%elem_of_cons & Hk & Hal & Hdef)|[Hacc Hrest]].
        { injection Heq as -> ->. rewrite Hal, Hdef in Hw. done. }
        { left. by exists name. }
        right. split; [done|].
        intros name v' Hin Hk. apply (Hrest name v'); [|done]. by apply elem_of_cons; right.
Qed.

Lemma BaseModel_dict_defaults fields inc exc items : ∀ acc : Doc,
  (∀ name v, (name, v) ∈ items → holds_default fields name v = true) →
  foldl (λ (document : Doc) '(k, v),
           if allowed_key inc exc k && negb (holds_default fields k v)
           then <[dict_key fields k := v]> document
           else document) acc items = acc.
Proof.
  induction items as [|[n x] items IH]; intros acc Hall; [done|].
  simpl. rewrite (Hall n x) by apply list_elem_of_here.
  rewrite andb_false_r. apply IH. intros name v Hin. apply Hall. by apply elem_of_cons; right.
Qed.

(** C3: without filters, the partial document holds exactly the fields
    whose value differs from the declared default, each under its alias
    (the aliases being pairwise distinct); with the identifier unset it
    has no ["_id"] key at all; and when besides every other field holds
    its default, it is the empty mapping. *)
Theorem mongo_partial_document (cls : PyClass) (d : InstDict) :
  let fields := model_fields cls in
  let document := Document_mongo cls d None None in
  (NoDup (dict_key fields <$> (dict_items d).*1) →
   ∀ k v, document !! k = Some v
          ↔ ∃ name, (name, v) ∈ dict_items d ∧ dict_key fields name = k
                    ∧ holds_default fields name v = false)
  ∧ (d_id d = None → document !! "_id" = None)
  ∧ (d_id d = None →
     (∀ name v, (name, v) ∈ d_fields d → holds_default fields name v = true) →
     document = ∅).
Proof.
  intros fields document. split_and!.
  - intros Hnd k v. subst document. unfold Document_mongo, BaseModel_dict. fold fields.
    assert (Hbase : ∀ k v, foldl (λ (document : Doc) '(k, v),
           if allowed_key None None k && negb (holds_default fields k v)
           then <[dict_key fields k := v]> document
           else document) ∅ (dict_items d) !! k = Some v
       ↔ ∃ name, (name, v) ∈ dict_items d ∧ dict_key fields name = k
                 ∧ holds_default fields name v = false).
    { intros k' v'. rewrite BaseModel_dict_lookup by done. split.
      - intros [(name & ? & ? & _ & ?)|[Hemp _]]; [by exists name|].
        by rewrite lookup_empty in Hemp.
      - intros (name & ? & ? & ?). left. by exists name. }
    case_bool_decide as Hid; [|apply Hbase].
    destruct (decide (k = "_id")) as [->|Hk].
    + rewrite lookup_delete_eq. split; [done|].
      intros (name & Hin & Hkey & Hdef). exfalso.
      unfold dict_items in Hin, Hnd. simpl in Hnd.
      apply NoDup_cons in Hnd as [Hfresh _].
      apply elem_of_cons in Hin as [Heq|Hin].
      * injection Heq as -> ->. unfold id_value in Hdef. rewrite Hid in Hdef.
        unfold fields in Hdef. by rewrite holds_default_id_None in Hdef.
      * apply Hfresh. unfold fields. rewrite dict_key_id. fold fields. rewrite <- Hkey.
        apply list_elem_of_fmap. exists name. split; [done|].
        apply list_elem_of_fmap. by exists (name, v).
    + rewrite lookup_delete_ne by done. apply Hbase.
  - intros Hid. subst document. unfold Document_mongo.
    rewrite bool_decide_eq_true_2 by done. apply lookup_delete_eq.
  - intros Hid Hall. subst document. unfold Document_mongo, BaseModel_dict.
    rewrite bool_decide_eq_true_2 by done.
    rewrite BaseModel_dict_defaults; [apply delete_empty|].
    intros name v [Heq|Hin]%elem_of_cons; [|by apply Hall].
    injection Heq as -> ->. unfold id_value. by rewrite Hid.
Qed.

(** ** The CRUD methods *)

Section Crud.
Context {S : Type} `{!Driver S} `{!Validator}.
Implicit Types (w : World S) (self other : nat) (kw : Kwargs).


Lemma Document_collection_frame cls w r w1 :
  Document_collection cls w = (r, w1) → same_heap w w1.
Proof.
  unfold Document_collection, class_mongo, Document_db, set_class_collection,
    bind, ret, raise, gets, modify, same_heap.
  intros Hrun. repeat case_match; simplify_eq; done.
Qed.

Lemma bound_collection_frame cls w r w1 :
  bound_collection cls w = (r, w1) → same_heap w w1.
Proof.
  unfold bound_collection, bind. intros Hrun.
  destruct (Document_collection cls w) as [[e|c] w2] eqn:Hc;
    apply Document_collection_frame in Hc.
  - by simplify_eq.
  - destruct c; unfold ret, raise in Hrun; by simplify_eq.
Qed.

Lemma get_instance_eq w r o : instance_of w r = Some o → get_instance r w = (inr o, w).
Proof. unfold get_instance. by intros ->. Qed.

Lemma get_dict_eq w r d : dict_of w r = Some d → get_dict r w = (inr d, w).
Proof. unfold get_dict. by intros ->. Qed.

Lemma instance_of_frame w w1 r : same_heap w w1 → instance_of w1 r = instance_of w r.
Proof. intros (Ho & _). unfold instance_of. by rewrite Ho. Qed.

Lemma dict_of_frame w w1 r : same_heap w w1 → dict_of w1 r = dict_of w r.
Proof. intros (Ho & Hd & _). unfold dict_of. by rewrite Ho, Hd. Qed.

Lemma mongo_of_eq w r o d :
  instance_of w r = Some o → dict_of w r = Some d →
  mongo_of r w = (inr (Document_mongo (o_class o) d None None), w).
Proof.
  intros Ho Hd. unfold mongo_of, bind.
  by rewrite (get_instance_eq _ _ _ Ho), (get_dict_eq _ _ _ Hd).
Qed.

Lemma get_id_eq w r d : dict_of w r = Some d → get_id r w = (inr (d_id d), w).
Proof. intros Hd. unfold get_id, bind. by rewrite (get_dict_eq _ _ _ Hd). Qed.

(** [r.id = v] writes the identifier into the [__dict__] of [r]. *)
Lemma set_id_eq w r o d v :
  instance_of w r = Some o → dict_of w r = Some d →
  set_id r v w = (inr (), with_dicts (<[o_dict o := mkDict v (d_fields d)]>) w).
Proof.
  intros Ho Hd. unfold set_id, bind.
  by rewrite (get_instance_eq _ _ _ Ho), (get_dict_eq _ _ _ Hd).
Qed.

Lemma id_of_set_id w r o v fs :
  instance_of w r = Some o →
  id_of (with_dicts (<[o_dict o := mkDict v fs]>) w) r = v.
Proof.
  unfold instance_of, id_of, dict_of. simpl. intros ->. simpl.
  by rewrite lookup_insert_eq.
Qed.

Lemma send_eq {A} w req (op : S → (exn + A) * S) r s' :
  op (w_store w) = (r, s') →
  send req op w
  = (r, mkWorld (w_classes w) (w_objects w) (w_dicts w) (w_log w ++ [req]) s').
Proof. unfold send. by intros ->. Qed.

(** C5: when the driver's [insert_one] returns, the instance carries
    the identifier the driver reported; when it raises, [insert]
    raises the same exception and no instance has changed. *)
Theorem insert_binds_identifier_after_success
    w self kw (o : Instance) (d : InstDict) (h : Collection) (w1 : World S) :
  instance_of w self = Some o →
  dict_of w self = Some d →
  bound_collection (o_class o) w = (inr h, w1) →
  let document := Document_mongo (o_class o) d None None in
  (∀ result s',
     insert_one h document kw (w_store w) = (inr result, s') →
     ∃ w', Document_insert self kw w = (inr (), w')
           ∧ id_of w' self = Some (inserted_id result)
           ∧ w_log w' = w_log w ++ [InsertOne h document kw])
  ∧ (∀ e s',
       insert_one h document kw (w_store w) = (inl e, s') →
       ∃ w', Document_insert self kw w = (inl e, w')
             ∧ w_objects w' = w_objects w ∧ w_dicts w' = w_dicts w
             ∧ id_of w' self = d_id d).
Proof.
  intros Ho Hd Hcoll document.
  pose proof (bound_collection_frame _ _ _ _ Hcoll) as Hf.
  pose proof Hf as (Hobj & Hdic & Hlog & Hsto).
  assert (Ho1 : instance_of w1 self = Some o) by by rewrite (instance_of_frame w).
  assert (Hd1 : dict_of w1 self = Some d) by by rewrite (dict_of_frame w).
  split.
  - intros result s' Hdrv. rewrite <- Hsto in Hdrv. eexists. split_and!.
    + unfold Document_insert, bind.
      rewrite (get_instance_eq _ _ _ Ho), Hcoll, (mongo_of_eq _ _ _ _ Ho1 Hd1).
      rewrite (send_eq _ _ _ _ _ Hdrv).
      by erewrite set_id_eq.
    + by apply id_of_set_id.
    + simpl. by rewrite Hlog.
  - intros e s' Hdrv. rewrite <- Hsto in Hdrv. eexists. split_and!.
    + unfold Document_insert, bind.
      rewrite (get_instance_eq _ _ _ Ho), Hcoll, (mongo_of_eq _ _ _ _ Ho1 Hd1).
      by rewrite (send_eq _ _ _ _ _ Hdrv).
    + done.
    + done.
    + unfold id_of, dict_of. simpl. unfold dict_of in Hd1. by rewrite Hd1.
Qed.

Lemma id_of_dict w r d : dict_of w r = Some d → id_of w r = d_id d.
Proof. unfold id_of. by intros ->. Qed.



(** *** Allocation and the swap of [__dict__] *)

Lemma fresh_instance w : instance_of w (fresh (dom (w_objects w))) = None.
Proof. unfold instance_of. apply not_elem_of_dom, is_fresh. Qed.

Lemma alloc_keeps_instance w cls d r o :
  instance_of w r = Some o → instance_of (after (new_instance cls d) w) r = Some o.
Proof.
  unfold instance_of, after, new_instance. simpl. intros Hr.
  rewrite lookup_insert_ne; [done|]. intros <-.
  pose proof (fresh_instance w) as Hfresh. unfold instance_of in Hfresh. congruence.
Qed.

Lemma alloc_keeps_dict w cls d r dr :
  dict_of w r = Some dr → dict_of (after (new_instance cls d) w) r = Some dr.
Proof.
  unfold dict_of. intros Hr.
  destruct (w_objects w !! r) as [o|] eqn:Ho; [|done]. simpl in Hr.
  pose proof (alloc_keeps_instance w cls d r o Ho) as Ho'. unfold instance_of in Ho'.
  rewrite Ho'. simpl. unfold after, new_instance. simpl.
  rewrite lookup_insert_ne; [done|]. intros Heq.
  assert (Hin : o_dict o ∈ dom (w_dicts w)) by (apply elem_of_dom; eauto).
  rewrite <- Heq in Hin. by apply is_fresh in Hin.
Qed.

Lemma alloc_new_instance w cls d :
  instance_of (after (new_instance cls d) w) (fresh (dom (w_objects w)))
  = Some (mkInstance cls (fresh (dom (w_dicts w)))).
Proof. unfold instance_of, after, new_instance. simpl. apply lookup_insert_eq. Qed.

Lemma alloc_new_dict w cls d :
  dict_of (after (new_instance cls d) w) (fresh (dom (w_objects w))) = Some d.
Proof.
  pose proof (alloc_new_instance w cls d) as Hi. unfold instance_of in Hi.
  unfold dict_of. rewrite Hi. simpl. unfold after, new_instance. simpl.
  apply lookup_insert_eq.
Qed.

Lemma construct_eq w cls raw d :
  validate cls raw = inr d →
  construct cls (Some raw) w
  = (inr (fresh (dom (w_objects w))), after (new_instance cls d) w).
Proof. intros Hval. unfold construct, bind, lift. by rewrite Hval. Qed.

Lemma set_dict_eq w r other o o' :
  instance_of w r = Some o → instance_of w other = Some o' →
  set_dict r other w
  = (inr (), with_objects (<[r := mkInstance (o_class o) (o_dict o')]>) w).
Proof.
  intros Ho Ho'. unfold set_dict, bind.
  by rewrite (get_instance_eq _ _ _ Ho), (get_instance_eq _ _ _ Ho').
Qed.

(** After [r.__dict__ = fresh.__dict__] for a newly made [fresh]: [r]
    reads the new state, keeps its class, and every other object reads
    what it read before. *)
Lemma swap_with_new w cls d' r o :
  instance_of w r = Some o →
  let w1 := after (new_instance cls d') w in
  let w2 := with_objects
              (<[r := mkInstance (o_class o) (fresh (dom (w_dicts w)))]>) w1 in
  set_dict r (fresh (dom (w_objects w))) w1 = (inr (), w2)
  ∧ dict_of w2 r = Some d'
  ∧ instance_of w2 r = Some (mkInstance (o_class o) (fresh (dom (w_dicts w))))
  ∧ (∀ r' dr, r' ≠ r → dict_of w r' = Some dr → dict_of w2 r' = Some dr)
  ∧ (∀ r' o', r' ≠ r → instance_of w r' = Some o' → instance_of w2 r' = Some o').
Proof.
  intros Ho w1 w2. split_and!.
  - unfold w2, w1.
    by rewrite (set_dict_eq _ _ _ _ _ (alloc_keeps_instance w cls d' r o Ho)
                  (alloc_new_instance w cls d')).
  - unfold dict_of, w2. simpl. rewrite lookup_insert_eq. simpl. apply lookup_insert_eq.
  - unfold instance_of, w2. simpl. apply lookup_insert_eq.
  - intros r' dr Hne Hdr. pose proof (alloc_keeps_dict w cls d' r' dr Hdr) as Hk.
    unfold dict_of, w2 in *. simpl in *. by rewrite lookup_insert_ne.
  - intros r' o' Hne Ho'. pose proof (alloc_keeps_instance w cls d' r' o' Ho') as Hk.
    unfold instance_of, w2 in *. simpl in *. by rewrite lookup_insert_ne.
Qed.

(** What [reload] does up to the answer of the driver. *)
Lemma reload_sends w self kw o d i h w1 found s' :
  instance_of w self = Some o → dict_of w self = Some d → d_id d = Some i →
  bound_collection (o_class o) w = (inr h, w1) →
  find_one h (Some {["_id" := ident_value i]}) kw (w_store w) = (inr found, s') →
  Document_reload self kw w
  = bind (construct (o_class o) found) (set_dict self)
      (mkWorld (w_classes w1) (w_objects w) (w_dicts w)
         (w_log w ++ [FindOne h (Some {["_id" := ident_value i]}) kw]) s').
Proof.
  intros Ho Hd Hid Hcoll Hdrv.
  pose proof (bound_collection_frame _ _ _ _ Hcoll) as (Hobj & Hdic & Hlog & Hsto).
  rewrite <- Hsto in Hdrv. unfold Document_reload.
  unfold bind at 1. rewrite (get_id_eq _ _ _ Hd), Hid.
  unfold bind at 1. rewrite (get_instance_eq _ _ _ Ho).
  unfold bind at 1. rewrite Hcoll.
  unfold bind at 1. rewrite (send_eq _ _ _ _ _ Hdrv).
  by rewrite Hobj, Hdic, Hlog.
Qed.

(** C10: when no stored document has the identifier, [find_one]
    answers [None], unpacking it raises [TypeError], and [reload]
    raises it on: no null result, no silent return, no instance
    changed. *)
Theorem reload_of_missing_document_raises
    w self kw (o : Instance) (d : InstDict) (i : Id)
    (h : Collection) (w1 : World S) (s' : S) :
  instance_of w self = Some o → dict_of w self = Some d → d_id d = Some i →
  bound_collection (o_class o) w = (inr h, w1) →
  find_one h (Some {["_id" := ident_value i]}) kw (w_store w) = (inr None, s') →
  ∃ msg w', Document_reload self kw w = (inl (TypeError msg), w')
            ∧ w_objects w' = w_objects w ∧ w_dicts w' = w_dicts w.
Proof.
  intros Ho Hd Hid Hcoll Hdrv.
  rewrite (reload_sends _ _ _ _ _ _ _ _ _ _ Ho Hd Hid Hcoll Hdrv).
  unfold bind, construct, raise. by eexists _, _.
Qed.

(** C6, as amended: [reload] on an instance with identifier [i] asks
    the driver for the document with that identifier; when the document
    comes back and validates, the same reference then reads the new
    state, its class is what it was, and every other object reads what
    it read before.  The identifier afterwards is the one of the new
    state: the old one whenever the fetched document validates to a
    state that carries it. *)
Theorem reload_swaps_state_in_place
    w self kw (o : Instance) (d d' : InstDict) (i : Id)
    (h : Collection) (w1 : World S) (raw : Doc) (s' : S) :
  instance_of w self = Some o → dict_of w self = Some d → d_id d = Some i →
  bound_collection (o_class o) w = (inr h, w1) →
  find_one h (Some {["_id" := ident_value i]}) kw (w_store w) = (inr (Some raw), s') →
  validate (o_class o) raw = inr d' →
  ∃ w', Document_reload self kw w = (inr (), w')
        ∧ w_log w' = w_log w ++ [FindOne h (Some {["_id" := ident_value i]}) kw]
        ∧ dict_of w' self = Some d'
        ∧ o_class <$> instance_of w' self = Some (o_class o)
        ∧ id_of w' self = d_id d'
        ∧ (d_id d' = Some i → id_of w' self = id_of w self)
        ∧ (∀ r dr, r ≠ self → dict_of w r = Some dr → dict_of w' r = Some dr)
        ∧ (∀ r o', r ≠ self → instance_of w r = Some o' → instance_of w' r = Some o').
Proof.
  intros Ho Hd Hid Hcoll Hdrv Hval.
  rewrite (reload_sends _ _ _ _ _ _ _ _ _ _ Ho Hd Hid Hcoll Hdrv).
  set (w2 := mkWorld _ _ _ _ _).
  assert (Ho2 : instance_of w2 self = Some o) by done.
  destruct (swap_with_new w2 (o_class o) d' self o Ho2)
    as (Hset & Hdict & Hinst & Hdicts & Hinsts).
  unfold bind. rewrite (construct_eq _ _ _ _ Hval), Hset.
  eexists. split_and!; [done|done|done| | | |done|done].
  - by rewrite Hinst.
  - by rewrite (id_of_dict _ _ _ Hdict).
  - intros Hid'. by rewrite (id_of_dict _ _ _ Hdict), (id_of_dict _ _ _ Hd), Hid, Hid'.
Qed.

(** *** The log only grows *)


Lemma log_grows_same {A} (c : M S A) :
  (∀ w r w', c w = (r, w') → w_log w' = w_log w) → log_grows c.
Proof. intros Hc w r w' Hrun. exists []. rewrite app_nil_r. by eapply Hc. Qed.

Lemma log_grows_bind {A B} (c : M S A) (k : A → M S B) :
  log_grows c → (∀ a, log_grows (k a)) → log_grows (bind c k).
Proof.
  intros Hc Hk w r w' Hrun. unfold bind in Hrun.
  destruct (c w) as [[e|a] w1] eqn:Hcw.
  - simplify_eq. by eapply Hc.
  - destruct (Hc _ _ _ Hcw) as [rest1 H1]. destruct (Hk a _ _ _ Hrun) as [rest2 H2].
    exists (rest1 ++ rest2). by rewrite H2, H1, app_assoc.
Qed.

Lemma log_grows_ret {A} (a : A) : log_grows (S:=S) (ret (S:=S) a).
Proof. apply log_grows_same. unfold ret. by intros; simplify_eq. Qed.

Lemma log_grows_raise {A} e : log_grows (S:=S) (raise (S:=S) (A:=A) e).
Proof. apply log_grows_same. unfold raise. by intros; simplify_eq. Qed.

Lemma log_grows_send {A} req (op : S → (exn + A) * S) : log_grows (S:=S) (send req op).
Proof.
  intros w r w' Hrun. unfold send in Hrun. destruct (op (w_store w)).
  simplify_eq. by eexists.
Qed.

Lemma log_grows_get_instance r : log_grows (S:=S) (get_instance r).
Proof.
  apply log_grows_same. unfold get_instance. intros w ?? Hrun.
  destruct (instance_of w r); by simplify_eq.
Qed.

Lemma log_grows_get_dict r : log_grows (S:=S) (get_dict r).
Proof.
  apply log_grows_same. unfold get_dict. intros w ?? Hrun.
  destruct (dict_of w r); by simplify_eq.
Qed.

Lemma log_grows_bound_collection cls : log_grows (S:=S) (bound_collection cls).
Proof.
  apply log_grows_same. intros w r w' Hrun.
  by apply bound_collection_frame in Hrun as (_ & _ & ? & _).
Qed.

Lemma log_grows_set_dict r other : log_grows (S:=S) (set_dict r other).
Proof.
  unfold set_dict. apply log_grows_bind; [apply log_grows_get_instance|]. intros o.
  apply log_grows_bind; [apply log_grows_get_instance|]. intros o'.
  apply log_grows_same. unfold modify. by intros; simplify_eq.
Qed.

Lemma log_grows_construct cls found : log_grows (S:=S) (construct cls found).
Proof.
  unfold construct. destruct found as [raw|]; [|apply log_grows_raise].
  apply log_grows_bind.
  - unfold lift. destruct (validate cls raw); [apply log_grows_raise|apply log_grows_ret].
  - intros d. apply log_grows_same. unfold new_instance. by intros; simplify_eq.
Qed.

Lemma log_grows_reload self kw : log_grows (S:=S) (Document_reload self kw).
Proof.
  unfold Document_reload, get_id.
  apply log_grows_bind.
  { apply log_grows_bind; [apply log_grows_get_dict|]. intros. apply log_grows_ret. }
  intros [i|]; [|apply log_grows_raise].
  apply log_grows_bind; [apply log_grows_get_instance|]. intros o.
  apply log_grows_bind; [apply log_grows_bound_collection|]. intros h.
  apply log_grows_bind; [apply log_grows_send|]. intros found.
  apply log_grows_bind; [apply log_grows_construct|]. intros updated.
  apply log_grows_set_dict.
Qed.

(** C8: with the identifier unset, [update] raises [AssertionError]
    and leaves the world, the log of requests included, as it was;
    with identifier [i] the first request it sends is the update with
    filter [{"_id": i}], and what it returns is true exactly when the
    driver counted one modified document (without [reload] it always
    returns, and sends nothing more). *)
Theorem update_requires_identifier
    w self (update : UpdateSpec) (reload : bool) kw (o : Instance) (d : InstDict) :
  instance_of w self = Some o → dict_of w self = Some d →
  (d_id d = None →
   Document_update self update reload kw w = (inl AssertionError, w))
  ∧ (∀ i h w1 result s',
       d_id d = Some i →
       bound_collection (o_class o) w = (inr h, w1) →
       update_one h {["_id" := ident_value i]} update kw (w_store w) = (inr result, s') →
       ∃ r w' rest,
         Document_update self update reload kw w = (r, w')
         ∧ w_log w' = w_log w ++ UpdateOne h {["_id" := ident_value i]} update kw :: rest
         ∧ (reload = false →
            r = inr (bool_decide (modified_count result = 1%Z)) ∧ rest = [])
         ∧ (∀ b, r = inr b → (b = true ↔ modified_count result = 1%Z))).
Proof.
  intros Ho Hd. split.
  - intros Hid. unfold Document_update, bind.
    by rewrite (get_id_eq _ _ _ Hd), Hid.
  - intros i h w1 result s' Hid Hcoll Hdrv.
    pose proof (bound_collection_frame _ _ _ _ Hcoll) as (Hobj & Hdic & Hlog & Hsto).
    rewrite <- Hsto in Hdrv. unfold Document_update.
    unfold bind at 1. rewrite (get_id_eq _ _ _ Hd), Hid.
    unfold bind at 1. rewrite (get_instance_eq _ _ _ Ho).
    unfold bind at 1. rewrite Hcoll.
    unfold bind at 1. rewrite (send_eq _ _ _ _ _ Hdrv).
    rewrite Hlog. set (w2 := mkWorld _ _ _ _ _).
    destruct reload.
    + unfold bind.
      destruct (Document_reload self [] w2) as [[e|[]] w3] eqn:Hre;
        destruct (log_grows_reload _ _ _ _ _ Hre) as [rest Hrest];
        eexists _, _, rest; (split; [done|]); (split; [rewrite Hrest; unfold w2; simpl; by rewrite <- app_assoc|]).
      * split; [done|]. intros b Hb. discriminate Hb.
      * split; [done|]. intros b Hb. unfold ret in Hb. injection Hb as <-.
        apply bool_decide_eq_true.
    + unfold bind, ret. eexists _, _, []. split_and!; try done.
      intros b Hb. injection Hb as <-. apply bool_decide_eq_true.
Qed.


Lemma isinstance_alloc w cls d r o cid :
  instance_of w r = Some o →
  isinstance (after (new_instance cls d) w) r cid = isinstance w r cid.
Proof.
  intros Ho. unfold isinstance.
  by rewrite (alloc_keeps_instance _ _ _ _ _ Ho), Ho.
Qed.

(** C7: when the driver returns a document and it validates, the call
    returns an instance holding the validated state.  Asked for the
    post-replace view with a replacement that is an instance of the
    calling class, it returns that very reference, its class
    unchanged; in every other case it returns a reference that did not
    exist before, an instance of the calling class, and leaves every
    object that existed reading what it read. *)
Theorem find_one_and_replace_in_place
    w (cls : PyClass) (filter : Doc) (replacement : Doc + nat)
    (return_document : bool) kw (data : Doc) (h : Collection) (w1 : World S)
    (raw : Doc) (s' : S) (d' : InstDict) :
  replacement_data w replacement = Some data →
  bound_collection cls w = (inr h, w1) →
  find_one_and_replace h filter data return_document kw (w_store w)
  = (inr (Some raw), s') →
  validate cls raw = inr d' →
  ∃ result w',
    Document_find_one_and_replace cls filter replacement return_document kw w
    = (inr (Some result), w')
    ∧ dict_of w' result = Some d'
    ∧ (∀ r, replacement = inr r → return_document = true →
            isinstance w r (c_id cls) = true →
            result = r
            ∧ o_class <$> instance_of w' r = o_class <$> instance_of w r)
    ∧ (return_document = false
       ∨ (∀ r, replacement = inr r → isinstance w r (c_id cls) = false) →
       instance_of w result = None
       ∧ o_class <$> instance_of w' result = Some cls
       ∧ ∀ r dr, dict_of w r = Some dr → dict_of w' r = Some dr).
Proof.
  intros Hdata Hcoll Hdrv Hval.
  pose proof (bound_collection_frame _ _ _ _ Hcoll) as (Hobj & Hdic & Hlog & Hsto).
  rewrite <- Hsto in Hdrv.
  set (w2 := mkWorld (w_classes w1) (w_objects w1) (w_dicts w1)
               (w_log w1 ++ [FindOneAndReplace h filter data return_document kw]) s').
  assert (Hi2 : ∀ r, instance_of w2 r = instance_of w r).
  { intros r. unfold instance_of, w2. simpl. by rewrite Hobj. }
  assert (Hd2 : ∀ r, dict_of w2 r = dict_of w r).
  { intros r. unfold dict_of, w2. simpl. by rewrite Hobj, Hdic. }
  assert (Hfresh : instance_of w (fresh (dom (w_objects w2))) = None).
  { rewrite <- Hi2. apply fresh_instance. }
  assert (Hkeep : ∀ r dr, dict_of w r = Some dr →
                          dict_of (after (new_instance cls d') w2) r = Some dr).
  { intros r dr Hr. apply alloc_keeps_dict. by rewrite Hd2. }
  unfold Document_find_one_and_replace.
  destruct replacement as [document|r]; simpl in Hdata.
  - injection Hdata as ->.
    unfold bind at 1. unfold ret at 1.
    unfold bind at 1. rewrite Hcoll.
    unfold bind at 1. rewrite (send_eq _ _ _ _ _ Hdrv). fold w2.
    unfold bind at 1. rewrite (construct_eq _ _ _ _ Hval).
    unfold bind, ret. rewrite andb_false_r.
    eexists _, _. split_and!; [done|apply alloc_new_dict|done|].
    intros _. split_and!; [done| |done].
    by rewrite alloc_new_instance.
  - destruct (isinstance w r Document_id) eqn:Hisdoc; [|done].
    destruct (instance_of w r) as [o|] eqn:Ho; [|done].
    destruct (dict_of w r) as [d|] eqn:Hd; [|done].
    simpl in Hdata. injection Hdata as <-.
    unfold bind at 1. unfold bind at 1. unfold gets at 1. rewrite Hisdoc.
    unfold bind at 1. rewrite (mongo_of_eq _ _ _ _ Ho Hd). unfold ret at 1.
    unfold bind at 1. rewrite Hcoll.
    unfold bind at 1. rewrite (send_eq _ _ _ _ _ Hdrv). fold w2.
    unfold bind at 1. rewrite (construct_eq _ _ _ _ Hval).
    unfold bind at 1. unfold gets at 1.
    assert (Ho2 : instance_of w2 r = Some o) by by rewrite Hi2.
    rewrite (isinstance_alloc _ _ _ _ _ _ Ho2).
    assert (His : isinstance w2 r (c_id cls) = isinstance w r (c_id cls)).
    { unfold isinstance. by rewrite Hi2. }
    rewrite His. clear His.
    destruct (return_document && isinstance w r (c_id cls)) eqn:Hboth.
    + apply andb_true_iff in Hboth as [-> Hsame].
      destruct (swap_with_new w2 cls d' r o Ho2) as (Hset & Hdict & Hinst & _ & _).
      unfold bind. rewrite Hset. unfold ret.
      eexists _, _. split_and!; [done|done| |].
      * intros r' [= <-] _ _. split; [done|]. by rewrite Hinst, Ho.
      * intros [?|Hnot]; [done|]. specialize (Hnot r eq_refl). congruence.
    + unfold ret. eexists _, _. split_and!; [done|apply alloc_new_dict| |].
      * intros r' [= <-] -> Hsame. rewrite Hsame in Hboth. done.
      * intros _. split_and!; [done| |done]. by rewrite alloc_new_instance.
Qed.

(** *** The collection cache *)

(** A cached handle made against the database in use is returned as
    it is, and nothing changes. *)
Lemma collection_returns_cached w cls meta handle :
  c_mongo cls = Some meta →
  class_collection w cls = Some handle →
  class_db w cls = Some (database handle) →
  Document_collection cls w = (inr (Some handle), w).
Proof.
  intros Hmeta Hc Hdb.
  unfold Document_collection, class_mongo, Document_db, bind, gets, ret.
  rewrite Hmeta, Hc, Hdb.
  rewrite bool_decide_eq_false_2 by (intros Hne; by apply Hne).
  by rewrite Hc.
Qed.

(** With no handle in reach, or one made against another database,
    a handle is made from the class's own [Mongo] against the database
    in use and stored on the class. *)
Lemma collection_rebinds w cls meta name db rest :
  c_mongo cls = Some meta → collection meta = Some name →
  c_mro cls = c_id cls :: rest →
  class_db w cls = Some db →
  (∀ handle, class_collection w cls = Some handle → database handle ≠ db) →
  let handle := get_collection db name (codec_options meta) (read_preference meta)
                  (write_concern meta) (read_concern meta) in
  ∃ w', Document_collection cls w = (inr (Some handle), w')
        ∧ class_collection w' cls = Some handle
        ∧ (a_collection <$> w_classes w' !! c_id cls) = Some (Some handle).
Proof.
  intros Hmeta Hname Hmro Hdb Hstale handle.
  unfold Document_collection, class_mongo, Document_db, set_class_collection,
    bind, gets, ret, modify.
  rewrite Hmeta, Hname.
  destruct (class_collection w cls) as [old|] eqn:Hc.
  - rewrite Hdb. rewrite bool_decide_eq_true_2 by by apply Hstale.
    rewrite Hdb. eexists. split_and!.
    + unfold class_collection at 1. rewrite Hmro. simpl. rewrite lookup_insert_eq. done.
    + unfold class_collection. rewrite Hmro. simpl. by rewrite lookup_insert_eq.
    + simpl. by rewrite lookup_insert_eq.
  - rewrite Hdb. eexists. split_and!.
    + unfold class_collection at 1. rewrite Hmro. simpl. rewrite lookup_insert_eq. done.
    + unfold class_collection. rewrite Hmro. simpl. by rewrite lookup_insert_eq.
    + simpl. by rewrite lookup_insert_eq.
Qed.
End Crud.

(** ** Examples on the scripted driver *)




(** C9: [User.collection()] stores its handle on [User]; attribute
    lookup on the subclass [Admin] then finds that handle before the
    [None] of [Document], so [Admin.collection()] returns the handle of
    the collection ["users"] although [Admin] declares ["admins"], and
    [Admin] gets no handle of its own. *)
Theorem subclass_shares_parent_binding :
  let w0 := after (Document_use Document (Some 1)) (empty_world []) in
  let w1 := after (Document_collection User) w0 in
  Document_collection User w0 = (inr (Some users_collection), w1)
  ∧ Document_collection Admin w1 = (inr (Some users_collection), w1)
  ∧ coll_name users_collection = "users"
  ∧ (c_mongo Admin ≫= collection) = Some "admins"
  ∧ w_classes w1 !! c_id Admin = None.
Proof. vm_compute. repeat split; reflexivity. Qed.

(** Asked first, [Admin] binds the collection it declares. *)
Example admin_collection_when_first :
  let w0 := after (Document_use Document (Some 1)) (empty_world []) in
  (Document_collection Admin w0).1
  = inr (Some (get_collection 1 "admins" None (Some SECONDARY)
                 (Some (mkWriteConcern 1 true)) None)).
Proof. vm_compute. reflexivity. Qed.

(** * Further properties *)

(** ** The database and the collection of a class *)

Lemma lookup_mro_None {A} (proj : ClassAttrs → option A) attrs mro :
  (∀ c, c ∈ mro → attrs !! c ≫= proj = None) → lookup_mro proj attrs mro = None.
Proof.
  induction mro as [|c mro IH]; intros Hall; [done|]. simpl.
  rewrite (Hall c) by apply list_elem_of_here.
  apply IH. intros c' Hc'. apply Hall. by apply elem_of_cons; right.
Qed.

Lemma lookup_mro_reach {A} (proj : ClassAttrs → option A) attrs pre cid rest v :
  (∀ c, c ∈ pre → c = cid ∨ attrs !! c ≫= proj = None) →
  attrs !! cid ≫= proj = Some v →
  lookup_mro proj attrs (pre ++ cid :: rest) = Some v.
Proof.
  intros Hpre Hcid. induction pre as [|c pre IH]; simpl.
  - by rewrite Hcid.
  - destruct (Hpre c (list_elem_of_here _ _)) as [->|Hnone].
    + by rewrite Hcid.
    + rewrite Hnone. apply IH. intros c' Hc'. apply Hpre. by apply elem_of_cons; right.
Qed.

Lemma lookup_mro_ext {A} (proj : ClassAttrs → option A) attrs attrs' mro :
  (∀ c, c ∈ mro → attrs' !! c ≫= proj = attrs !! c ≫= proj) →
  lookup_mro proj attrs' mro = lookup_mro proj attrs mro.
Proof.
  induction mro as [|c mro IH]; intros Hall; [done|]. simpl.
  rewrite (Hall c) by apply list_elem_of_here.
  rewrite IH; [done|]. intros c' Hc'. apply Hall. by apply elem_of_cons; right.
Qed.

(** Setting [__db__] on a class leaves every [__collection__] as it
    was, and the other way round. *)
Lemma set_db_keeps_collection attrs cid db c :
  <[cid := mkClassAttrs (Some db) (a_collection (own_attrs attrs cid))]> attrs !! c
    ≫= a_collection
  = attrs !! c ≫= a_collection.
Proof.
  destruct (decide (cid = c)) as [->|Hne].
  - rewrite lookup_insert_eq. unfold own_attrs. by destruct (attrs !! c).
  - by rewrite lookup_insert_ne.
Qed.

Lemma set_collection_keeps_db attrs cid h c :
  <[cid := mkClassAttrs (a_db (own_attrs attrs cid)) (Some h)]> attrs !! c ≫= a_db
  = attrs !! c ≫= a_db.
Proof.
  destruct (decide (cid = c)) as [->|Hne].
  - rewrite lookup_insert_eq. unfold own_attrs. by destruct (attrs !! c).
  - by rewrite lookup_insert_ne.
Qed.

Section Binding.
Context {S : Type}.
Implicit Types (w : World S).

Lemma use_db_reach w cls db rest :
  c_mro cls = c_id cls :: rest →
  ∃ w1, Document_use cls (Some db) w = (inr (), w1)
        ∧ class_db w1 cls = Some db
        ∧ class_collection w1 cls = class_collection w cls
        ∧ a_db <$> w_classes w1 !! c_id cls = Some (Some db).
Proof.
  intros Hmro. eexists. split; [reflexivity|]. split_and!.
  - unfold class_db. simpl. rewrite Hmro. simpl. by rewrite lookup_insert_eq.
  - unfold class_collection. simpl. apply lookup_mro_ext.
    intros c _. apply set_db_keeps_collection.
  - simpl. by rewrite lookup_insert_eq.
Qed.

(** X1: [cls.use(db)] sets the database of [cls] and of every class
    that reaches [cls] along its MRO before a class with a database of
    its own; classes that do not descend from [cls] keep theirs, and no
    cached collection and no instance is touched. *)
Theorem use_binds_database_for_subclasses
    w (cls sub : PyClass) (db : Db) (pre rest : list ClassId) :
  c_mro sub = pre ++ c_id cls :: rest →
  (∀ c, c ∈ pre → w_classes w !! c ≫= a_db = None) →
  ∃ w', Document_use cls (Some db) w = (inr (), w')
        ∧ Document_db sub w' = (inr db, w')
        ∧ same_heap w w'
        ∧ (∀ other, c_id cls ∉ c_mro other → class_db w' other = class_db w other)
        ∧ (∀ other, class_collection w' other = class_collection w other).
Proof.
  intros Hmro Hpre. eexists. split; [reflexivity|]. split_and!.
  - unfold Document_db, bind, gets, class_db. simpl. rewrite Hmro.
    erewrite lookup_mro_reach; [done| |by rewrite lookup_insert_eq].
    intros c Hc. destruct (decide (c = c_id cls)) as [->|Hne]; [by left|].
    right. rewrite lookup_insert_ne by done. by apply Hpre.
  - done.
  - intros other Hnot. unfold class_db. simpl. apply lookup_mro_ext.
    intros c Hc. rewrite lookup_insert_ne; [done|]. by intros <-.
  - intros other. unfold class_collection. simpl. apply lookup_mro_ext.
    intros c _. apply set_db_keeps_collection.
Qed.

Lemma collection_without_mongo w cls :
  c_mongo cls = None → ∃ e, Document_collection cls w = (inl e, w).
Proof.
  intros Hmeta. unfold Document_collection, class_mongo, bind, raise.
  rewrite Hmeta. by eexists.
Qed.

Lemma collection_without_db w cls meta :
  c_mongo cls = Some meta → class_db w cls = None →
  Document_collection cls w
  = (inl (AttributeError "Accessing database without using it first."), w).
Proof.
  intros Hmeta Hdb.
  unfold Document_collection, class_mongo, Document_db, bind, ret, raise, gets.
  rewrite Hmeta. destruct (class_collection w cls); simpl; by rewrite ?Hdb.
Qed.

Lemma collection_without_name w cls meta d :
  c_mongo cls = Some meta → class_db w cls = Some d → collection meta = None →
  (∀ old, class_collection w cls = Some old → database old ≠ d) →
  Document_collection cls w = (inl (AttributeError "collection"), w).
Proof.
  intros Hmeta Hdb Hname Hstale.
  unfold Document_collection, class_mongo, Document_db, bind, ret, raise, gets.
  rewrite Hmeta, Hname.
  destruct (class_collection w cls) as [old|]; simpl; rewrite Hdb; [|done].
  rewrite bool_decide_eq_true_2 by by apply Hstale. by rewrite Hdb.
Qed.

Lemma collection_keeps_own_db w cls r w1 c :
  Document_collection cls w = (r, w1) →
  w_classes w1 !! c ≫= a_db = w_classes w !! c ≫= a_db.
Proof.
  unfold Document_collection, class_mongo, Document_db, set_class_collection,
    bind, ret, raise, gets, modify.
  intros Hrun. repeat case_match; simplify_eq; try done.
  all: simpl; apply set_collection_keeps_db.
Qed.

Lemma collection_keeps_db w cls r w1 other :
  Document_collection cls w = (r, w1) → class_db w1 other = class_db w other.
Proof.
  intros Hrun. unfold class_db. apply lookup_mro_ext. intros c _.
  by eapply collection_keeps_own_db.
Qed.

(** X2: with no database set on the class or on any class of its MRO,
    [db()] raises [AttributeError], and so does [collection()], whether
    or not a handle is cached; the world is left as it was. *)
Theorem database_required_before_use w (cls : PyClass) (meta : Mongo) :
  c_mongo cls = Some meta →
  (∀ c, c ∈ c_mro cls → w_classes w !! c ≫= a_db = None) →
  Document_db cls w
  = (inl (AttributeError "Accessing database without using it first."), w)
  ∧ Document_collection cls w
    = (inl (AttributeError "Accessing database without using it first."), w)
  ∧ bound_collection cls w
    = (inl (AttributeError "Accessing database without using it first."), w).
Proof.
  intros Hmeta Hnone.
  assert (Hdb : class_db w cls = None) by by apply lookup_mro_None.
  pose proof (collection_without_db w cls meta Hmeta Hdb) as Hcoll.
  split_and!; [|done|].
  - unfold Document_db, bind, gets. by rewrite Hdb.
  - unfold bound_collection, bind. by rewrite Hcoll.
Qed.

Lemma collection_stable_core
    w (cls : PyClass) (rest : list ClassId) (h : Collection) (w1 : World S) :
  c_mro cls = c_id cls :: rest →
  Document_collection cls w = (inr (Some h), w1) →
  class_db w cls = Some (database h)
  ∧ Document_collection cls w1 = (inr (Some h), w1)
  ∧ same_heap w w1.
Proof.
  intros Hmro Hrun.
  pose proof (Document_collection_frame _ _ _ _ Hrun) as Hframe.
  pose proof (collection_keeps_db _ _ _ _ cls Hrun) as Hkeep.
  destruct (c_mongo cls) as [meta|] eqn:Hmeta; cycle 1.
  { destruct (collection_without_mongo w cls Hmeta) as [e He]. congruence. }
  destruct (class_db w cls) as [d|] eqn:Hdb; cycle 1.
  { rewrite (collection_without_db w cls meta Hmeta Hdb) in Hrun. done. }
  assert (Hcases : (∃ old, class_collection w cls = Some old ∧ database old = d)
                   ∨ (∀ old, class_collection w cls = Some old → database old ≠ d)).
  { destruct (class_collection w cls) as [old|]; [|by right].
    destruct (decide (database old = d)); [left; by exists old|right].
    by intros ? [= <-]. }
  destruct Hcases as [(old & Hold & Hsame)|Hstale].
  - subst d.
    rewrite (collection_returns_cached w cls meta old Hmeta Hold Hdb) in Hrun.
    injection Hrun as <- <-. split_and!; [done| |done].
    by apply (collection_returns_cached w cls meta).
  - destruct (collection meta) as [name|] eqn:Hname; cycle 1.
    { rewrite (collection_without_name w cls meta d Hmeta Hdb Hname Hstale) in Hrun.
      done. }
    destruct (collection_rebinds w cls meta name d rest Hmeta Hname Hmro Hdb Hstale)
      as (w' & Hrun' & Hc' & _).
    rewrite Hrun' in Hrun. injection Hrun as <- <-.
    split_and!; [done| |done].
    apply (collection_returns_cached _ cls meta); [done|done|]. by rewrite Hkeep.
Qed.

(** X3: the handle [collection()] returns was made against the database
    the class uses, asking again returns the same handle and changes
    nothing, and no instance is touched. *)
Theorem collection_is_stable
    w (cls : PyClass) (rest : list ClassId) (h : Collection) (w1 : World S) :
  c_mro cls = c_id cls :: rest →
  Document_collection cls w = (inr (Some h), w1) →
  class_db w cls = Some (database h)
  ∧ Document_collection cls w1 = (inr (Some h), w1)
  ∧ same_heap w w1.
Proof. apply collection_stable_core. Qed.

(** X4: once [cls.use(db)] has set a database no handle in reach was
    made against, [cls.collection()] makes the handle anew from the
    [Mongo] of [cls] itself (collection name, codec options, read
    preference, write concern, read concern) against [db], and stores
    it on [cls]. *)
Theorem use_then_collection
    w (cls : PyClass) (meta : Mongo) (name : string) (db : Db) (rest : list ClassId) :
  c_mongo cls = Some meta → collection meta = Some name →
  c_mro cls = c_id cls :: rest →
  (∀ old, class_collection w cls = Some old → database old ≠ db) →
  let handle := get_collection db name (codec_options meta) (read_preference meta)
                  (write_concern meta) (read_concern meta) in
  ∃ w1 w2, Document_use cls (Some db) w = (inr (), w1)
           ∧ Document_collection cls w1 = (inr (Some handle), w2)
           ∧ w_classes w2 !! c_id cls = Some (mkClassAttrs (Some db) (Some handle)).
Proof.
  intros Hmeta Hname Hmro Hstale handle.
  destruct (use_db_reach w cls db rest Hmro) as (w1 & Huse & Hdb & Hcoll & Hown).
  destruct (collection_rebinds w1 cls meta name db rest Hmeta Hname Hmro Hdb)
    as (w2 & Hrun & _ & _).
  { intros old Hold. apply Hstale. by rewrite <- Hcoll. }
  destruct (collection_rebinds w1 cls meta name db rest Hmeta Hname Hmro Hdb)
    as (w2' & Hrun' & _ & Hentry).
  { intros old Hold. apply Hstale. by rewrite <- Hcoll. }
  rewrite Hrun in Hrun'. injection Hrun' as <-.
  exists w1, w2. split_and!; [done|done|].
  pose proof (collection_keeps_own_db _ _ _ _ (c_id cls) Hrun) as Hkeep.
  destruct (w_classes w2 !! c_id cls) as [[own_db own_coll]|]; [|done].
  destruct (w_classes w1 !! c_id cls) as [[db1 coll1]|]; [|done].
  simpl in *. by simplify_eq.
Qed.
End Binding.

(** ** The partial document under filters *)

(** The entries of [mongo(include=..., exclude=...)] when the aliases
    are pairwise distinct. *)
Lemma Document_mongo_lookup cls d inc exc k v :
  NoDup (dict_key (model_fields cls) <$> (dict_items d).*1) →
  Document_mongo cls d inc exc !! k = Some v
  ↔ ∃ name, (name, v) ∈ dict_items d ∧ dict_key (model_fields cls) name = k
            ∧ allowed_key inc exc name = true
            ∧ holds_default (model_fields cls) name v = false.
Proof.
  intros Hnd. unfold Document_mongo, BaseModel_dict.
  assert (Hbase : ∀ k v, foldl (λ (document : Doc) '(k, v),
         if allowed_key inc exc k && negb (holds_default (model_fields cls) k v)
         then <[dict_key (model_fields cls) k := v]> document
         else document) ∅ (dict_items d) !! k = Some v
     ↔ ∃ name, (name, v) ∈ dict_items d ∧ dict_key (model_fields cls) name = k
               ∧ allowed_key inc exc name = true
               ∧ holds_default (model_fields cls) name v = false).
  { intros k' v'. rewrite BaseModel_dict_lookup by done. split.
    - intros [?|[Hemp _]]; [done|]. by rewrite lookup_empty in Hemp.
    - intros ?. by left. }
  case_bool_decide as Hid; [|apply Hbase].
  destruct (decide (k = "_id")) as [->|Hk].
  - rewrite lookup_delete_eq. split; [done|].
    intros (name & Hin & Hkey & _ & Hdef). exfalso.
    unfold dict_items in Hin, Hnd. simpl in Hnd.
    apply NoDup_cons in Hnd as [Hfresh _].
    apply elem_of_cons in Hin as [Heq|Hin].
    + injection Heq as -> ->. unfold id_value in Hdef. rewrite Hid in Hdef.
      by rewrite holds_default_id_None in Hdef.
    + apply Hfresh. rewrite dict_key_id, <- Hkey.
      apply list_elem_of_fmap. exists name. split; [done|].
      apply list_elem_of_fmap. by exists (name, v).
  - rewrite lookup_delete_ne by done. apply Hbase.
Qed.

(** X5: [mongo(include=..., exclude=...)] filters on field names and
    writes under aliases: with pairwise distinct aliases the result
    holds exactly the fields that the filters leave in and that do not
    hold their default, and it is part of the unfiltered partial
    document; with the identifier unset it has no ["_id"] key whatever
    [include] names. *)
Theorem mongo_filters_by_field_name
    (cls : PyClass) (d : InstDict) (include exclude : option (gset string)) :
  let fields := model_fields cls in
  let document := Document_mongo cls d include exclude in
  (NoDup (dict_key fields <$> (dict_items d).*1) →
   (∀ k v, document !! k = Some v
           ↔ ∃ name, (name, v) ∈ dict_items d ∧ dict_key fields name = k
                     ∧ allowed_key include exclude name = true
                     ∧ holds_default fields name v = false)
   ∧ document ⊆ Document_mongo cls d None None)
  ∧ (d_id d = None → document !! "_id" = None).
Proof.
  intros fields document. split.
  - intros Hnd. split; [intros k v; by apply Document_mongo_lookup|].
    apply map_subseteq_spec. intros k v Hk.
    apply (Document_mongo_lookup _ _ _ _ _ _ Hnd) in Hk as (name & ? & ? & _ & ?).
    apply (Document_mongo_lookup _ _ _ _ _ _ Hnd). by exists name.
  - intros Hid. subst document. unfold Document_mongo.
    rewrite bool_decide_eq_true_2 by done. apply lookup_delete_eq.
Qed.

(** Binding the identifier changes the partial document by the ["_id"]
    entry and nothing else. *)
Lemma Document_mongo_set_id cls d i :
  NoDup (dict_key (model_fields cls) <$> (dict_items d).*1) →
  Document_mongo cls (mkDict (Some i) (d_fields d)) None None
  = <["_id" := ident_value i]> (Document_mongo cls d None None).
Proof.
  intros Hnd.
  assert (Hnd' : NoDup (dict_key (model_fields cls)
                          <$> (dict_items (mkDict (Some i) (d_fields d))).*1)) by done.
  pose proof Hnd as Hnd0. unfold dict_items in Hnd0. simpl in Hnd0.
  apply NoDup_cons in Hnd0 as [Hfresh _].
  assert (Hfield : ∀ name v, (name, v) ∈ d_fields d →
                             dict_key (model_fields cls) name ≠ "_id").
  { intros name v Hin Hkey. apply Hfresh. rewrite dict_key_id, <- Hkey.
    apply list_elem_of_fmap. exists name. split; [done|].
    apply list_elem_of_fmap. by exists (name, v). }
  apply map_eq. intros k. apply option_eq. intros v.
  rewrite (Document_mongo_lookup _ _ _ _ _ _ Hnd').
  destruct (decide (k = "_id")) as [->|Hk].
  - rewrite lookup_insert_eq. split.
    + intros (name & [Heq|Hin]%elem_of_cons & Hkey & _).
      * by injection Heq as -> ->.
      * by destruct (Hfield name v Hin).
    + intros [= <-]. exists "id". split_and!; try done; [apply list_elem_of_here|].
      apply bool_decide_eq_false_2. intros [= Hnone]. by apply (ident_value_set i).
  - rewrite lookup_insert_ne by done. rewrite (Document_mongo_lookup _ _ _ _ _ _ Hnd).
    split.
    + intros (name & [Heq|Hin]%elem_of_cons & Hkey & Hal & Hdef).
      * injection Heq as -> ->. by rewrite dict_key_id in Hkey.
      * exists name. split_and!; try done. by apply elem_of_cons; right.
    + intros (name & [Heq|Hin]%elem_of_cons & Hkey & Hal & Hdef).
      * injection Heq as -> ->. by rewrite dict_key_id in Hkey.
      * exists name. split_and!; try done. by apply elem_of_cons; right.
Qed.

(** ** Bases that are no documents *)

Lemma inherit_base_skip mongo base :
  is_document_subclass base = false → inherit_base mongo base = mongo.
Proof. intros Hno. unfold inherit_base. by rewrite Hno. Qed.

Lemma foldl_inherit_filter bases : ∀ mongo,
  foldl inherit_base mongo bases
  = foldl inherit_base mongo (filter (λ b, is_document_subclass b = true) bases).
Proof.
  induction bases as [|b bases IH]; intros mongo; [done|].
  destruct (is_document_subclass b) eqn:Hb.
  - rewrite filter_cons_True by done. simpl. apply IH.
  - rewrite filter_cons_False by (by rewrite Hb). simpl.
    rewrite inherit_base_skip by done. apply IH.
Qed.

Lemma filter_foreign_nil bases :
  Forall (λ b, is_document_subclass b = false) bases →
  filter (λ b, is_document_subclass b = true) bases = [].
Proof.
  induction 1 as [|b bases Hb _ IH]; [done|].
  rewrite filter_cons_False by (by rewrite Hb). exact IH.
Qed.

(** X6: only the bases that are proper subclasses of [Document] take
    part in the merge of [Mongo]: [BaseModel], [Document] itself and
    classes that do not descend from [Document] contribute nothing,
    wherever they stand among the bases and whatever [__mongo__] they
    carry; with no proper subclass among the bases the merge starts from
    [MongoBase]. *)
Theorem foreign_bases_are_ignored (bases : list PyClass) (namespace : Namespace) :
  merged_mongo bases namespace
  = merged_mongo (filter (λ b, is_document_subclass b = true) bases) namespace
  ∧ (Forall (λ b, is_document_subclass b = false) bases →
     merged_mongo bases namespace
     = inherit_class "Mongo" (ns_Mongo namespace) MongoBase).
Proof.
  assert (Hfilter : merged_mongo bases namespace
    = merged_mongo (filter (λ b, is_document_subclass b = true) bases) namespace).
  { unfold merged_mongo. by rewrite foldl_inherit_filter, filter_reverse. }
  split; [done|]. intros Hall. rewrite Hfilter.
  by rewrite (filter_foreign_nil bases Hall).
Qed.

(** A mixin that carries a [__mongo__] of its own changes nothing. *)
Example mixin_mongo_is_ignored :
  let mixin := mkClass ("app.mixins", "Audited") [("app.mixins", "Audited"); object_id]
                 (Some (mkMongo (Some "audit") None None None None)) [] in
  merged_mongo [mixin; User] Admin_namespace = merged_mongo [User] Admin_namespace.
Proof. vm_compute. reflexivity. Qed.

(** ** Deleting, counting and looking up *)

Section Queries.
Context {S : Type} `{!Driver S} `{!QueryDriver S} `{!Validator}.
Implicit Types (w : World S) (self : nat) (kw : Kwargs).

Lemma call_eq {A} w (op : S → (exn + A) * S) r s' :
  op (w_store w) = (r, s') →
  call op w = (r, mkWorld (w_classes w) (w_objects w) (w_dicts w) (w_log w) s').
Proof. unfold call. by intros ->. Qed.

Lemma heap_stable_bind {A B} (c : M S A) (k : A → M S B) :
  heap_stable c → (∀ a, heap_stable (k a)) → heap_stable (bind c k).
Proof.
  intros Hc Hk w. specialize (Hc w). unfold after, bind in *.
  destruct (c w) as [[e|a] w1]; simpl in *; [done|].
  specialize (Hk a w1). unfold after in Hk.
  destruct Hk as [-> ->]. done.
Qed.

Lemma heap_stable_ret {A} (a : A) : heap_stable (S:=S) (ret a).
Proof. by intros w. Qed.

Lemma heap_stable_raise {A} e : heap_stable (S:=S) (raise (A:=A) e).
Proof. by intros w. Qed.

Lemma heap_stable_call {A} (op : S → (exn + A) * S) : heap_stable (call op).
Proof. intros w. unfold after, call. by destruct (op (w_store w)). Qed.

Lemma heap_stable_send {A} req (op : S → (exn + A) * S) : heap_stable (send req op).
Proof. intros w. unfold after, send. by destruct (op (w_store w)). Qed.

Lemma heap_stable_get_instance r : heap_stable (S:=S) (get_instance r).
Proof. intros w. unfold after, get_instance. by destruct (instance_of w r). Qed.

Lemma heap_stable_get_dict r : heap_stable (S:=S) (get_dict r).
Proof. intros w. unfold after, get_dict. by destruct (dict_of w r). Qed.

Lemma heap_stable_bound_collection cls : heap_stable (S:=S) (bound_collection cls).
Proof.
  intros w. unfold after. destruct (bound_collection cls w) as [r w1] eqn:Hrun.
  by apply bound_collection_frame in Hrun as (? & ? & _).
Qed.

Lemma heap_stable_mongo_of r : heap_stable (S:=S) (mongo_of r).
Proof.
  unfold mongo_of. apply heap_stable_bind; [apply heap_stable_get_instance|]. intros o.
  apply heap_stable_bind; [apply heap_stable_get_dict|]. intros d. apply heap_stable_ret.
Qed.

Lemma heap_stable_mongo_of_all objects : heap_stable (S:=S) (mongo_of_all objects).
Proof.
  induction objects as [|obj objects IH]; simpl; [apply heap_stable_ret|].
  apply heap_stable_bind; [apply heap_stable_mongo_of|]. intros document.
  apply heap_stable_bind; [apply IH|]. intros documents. apply heap_stable_ret.
Qed.

(** X7: [delete] passes the whole partial document of the instance as
    filter to [delete_one], returns whether the driver counted exactly
    one deleted document, and leaves the instance as it was: it still
    carries its identifier. *)
Theorem delete_reports_single_deletion
    w self kw (o : Instance) (d : InstDict) (h : Collection) (w1 : World S)
    (result : DeleteResult) (s' : S) :
  instance_of w self = Some o → dict_of w self = Some d →
  bound_collection (o_class o) w = (inr h, w1) →
  delete_one h (Document_mongo (o_class o) d None None) kw (w_store w)
  = (inr result, s') →
  ∃ w', Document_delete self kw w
        = (inr (bool_decide (deleted_count result = 1%Z)), w')
        ∧ dict_of w' self = Some d
        ∧ id_of w' self = d_id d
        ∧ w_objects w' = w_objects w ∧ w_dicts w' = w_dicts w.
Proof.
  intros Ho Hd Hcoll Hdrv.
  pose proof (bound_collection_frame _ _ _ _ Hcoll) as Hf.
  pose proof Hf as (Hobj & Hdic & Hlog & Hsto).
  rewrite <- Hsto in Hdrv.
  assert (Ho1 : instance_of w1 self = Some o) by by rewrite (instance_of_frame w).
  assert (Hd1 : dict_of w1 self = Some d) by by rewrite (dict_of_frame w).
  unfold Document_delete.
  unfold bind at 1. rewrite (get_instance_eq _ _ _ Ho).
  unfold bind at 1. rewrite Hcoll.
  unfold bind at 1. rewrite (mongo_of_eq _ _ _ _ Ho1 Hd1).
  unfold bind at 1. rewrite (call_eq _ _ _ _ Hdrv). unfold ret.
  eexists. split; [done|].
  assert (Hd' : dict_of (mkWorld (w_classes w1) (w_objects w1) (w_dicts w1) (w_log w1) s')
                  self = Some d) by done.
  split_and!; [done| |done|done]. by rewrite (id_of_dict _ _ _ Hd').
Qed.

(** X8: [delete], [delete_many] and [count_documents] never change an
    instance: whatever the driver answers and whether they return or
    raise, every object and every [__dict__] is afterwards what it
    was. *)
Theorem queries_leave_instances_alone :
  (∀ self kw, heap_stable (S:=S) (Document_delete self kw))
  ∧ (∀ cls objects, heap_stable (S:=S) (Document_delete_many cls objects))
  ∧ (∀ cls kw, heap_stable (S:=S) (Document_count_documents cls kw)).
Proof.
  split_and!.
  - intros self kw. unfold Document_delete.
    apply heap_stable_bind; [apply heap_stable_get_instance|]. intros o.
    apply heap_stable_bind; [apply heap_stable_bound_collection|]. intros h.
    apply heap_stable_bind; [apply heap_stable_mongo_of|]. intros filter.
    apply heap_stable_bind; [apply heap_stable_call|]. intros result.
    apply heap_stable_ret.
  - intros cls objects. unfold Document_delete_many.
    apply heap_stable_bind; [apply heap_stable_bound_collection|]. intros h.
    apply heap_stable_bind; [apply heap_stable_mongo_of_all|]. intros documents.
    apply heap_stable_bind; [apply heap_stable_call|]. intros result.
    apply heap_stable_ret.
  - intros cls kw. unfold Document_count_documents.
    apply heap_stable_bind; [apply heap_stable_bound_collection|]. intros h.
    apply heap_stable_call.
Qed.

(** *** [cls( **doc) if doc else None] *)

Lemma construct_if_nothing w cls found :
  found = None ∨ found = Some ∅ → construct_if cls found w = (inr None, w).
Proof. intros [->| ->]; [done|]. unfold construct_if. by rewrite bool_decide_eq_true_2. Qed.

Lemma construct_if_valid w cls raw d :
  raw ≠ ∅ → validate cls raw = inr d →
  construct_if cls (Some raw) w
  = (inr (Some (fresh (dom (w_objects w)))), after (new_instance cls d) w).
Proof.
  intros Hne Hval. unfold construct_if. rewrite bool_decide_eq_false_2 by done.
  unfold bind. by rewrite (construct_eq _ _ _ _ Hval).
Qed.

Lemma construct_if_invalid w cls raw e :
  raw ≠ ∅ → validate cls raw = inl e → construct_if cls (Some raw) w = (inl e, w).
Proof.
  intros Hne Hval. unfold construct_if. rewrite bool_decide_eq_false_2 by done.
  unfold bind, construct, lift, bind. by rewrite Hval.
Qed.

Lemma alloc_keeps_objects w cls d : keeps_objects w (after (new_instance cls d) w).
Proof.
  split; [intros r o; apply alloc_keeps_instance|intros r dr; apply alloc_keeps_dict].
Qed.

(** What the three single-document lookups do with the driver's answer
    [found] in a world [w2] that has the objects of [w]. *)
Lemma found_outcome w w2 cls found (c : M S (option nat)) :
  w_objects w2 = w_objects w → w_dicts w2 = w_dicts w →
  c w = construct_if cls found w2 →
  (found = None ∨ found = Some ∅ →
   ∃ w', c w = (inr None, w')
         ∧ w_objects w' = w_objects w ∧ w_dicts w' = w_dicts w)
  ∧ (∀ raw, found = Some raw → raw ≠ ∅ →
       match validate cls raw with
       | inr d =>
           ∃ r w', c w = (inr (Some r), w')
                   ∧ instance_of w r = None
                   ∧ o_class <$> instance_of w' r = Some cls
                   ∧ dict_of w' r = Some d
                   ∧ keeps_objects w w'
       | inl e =>
           ∃ w', c w = (inl e, w')
                 ∧ w_objects w' = w_objects w ∧ w_dicts w' = w_dicts w
       end).
Proof.
  intros Hobj Hdic Hrun. rewrite Hrun. split.
  - intros Hnothing. rewrite (construct_if_nothing _ _ _ Hnothing). by eexists.
  - intros raw -> Hne. destruct (validate cls raw) as [e|d] eqn:Hval.
    + rewrite (construct_if_invalid _ _ _ _ Hne Hval). by eexists.
    + rewrite (construct_if_valid _ _ _ _ Hne Hval). eexists _, _. split; [done|].
      split_and!.
      * pose proof (fresh_instance w2) as Hfresh. unfold instance_of in *.
        by rewrite <- Hobj.
      * by rewrite alloc_new_instance.
      * apply alloc_new_dict.
      * destruct (alloc_keeps_objects w2 cls d) as [Hi Hd]. split.
        -- intros r o Hr. apply Hi. unfold instance_of in *. by rewrite Hobj.
        -- intros r dr Hr. apply Hd. unfold dict_of in *. by rewrite Hobj, Hdic.
Qed.

(** X9: [find_one] returns [None], and makes no instance, both when the
    driver answers [None] and when it answers an empty document; for any
    other document it returns a new instance of the class holding the
    validated state, existing objects untouched, or raises the
    validator's error with nothing changed. *)
Theorem find_one_maps_nothing_to_None
    w (cls : PyClass) (filter : option Doc) kw (h : Collection) (w1 : World S)
    (found : option Doc) (s' : S) :
  bound_collection cls w = (inr h, w1) →
  find_one h filter kw (w_store w) = (inr found, s') →
  (found = None ∨ found = Some ∅ →
   ∃ w', Document_find_one cls filter kw w = (inr None, w')
         ∧ w_objects w' = w_objects w ∧ w_dicts w' = w_dicts w)
  ∧ (∀ raw, found = Some raw → raw ≠ ∅ →
       match validate cls raw with
       | inr d =>
           ∃ r w', Document_find_one cls filter kw w = (inr (Some r), w')
                   ∧ instance_of w r = None
                   ∧ o_class <$> instance_of w' r = Some cls
                   ∧ dict_of w' r = Some d
                   ∧ keeps_objects w w'
       | inl e =>
           ∃ w', Document_find_one cls filter kw w = (inl e, w')
                 ∧ w_objects w' = w_objects w ∧ w_dicts w' = w_dicts w
       end).
Proof.
  intros Hcoll Hdrv.
  pose proof (bound_collection_frame _ _ _ _ Hcoll) as (Hobj & Hdic & Hlog & Hsto).
  rewrite <- Hsto in Hdrv.
  eapply (found_outcome w _ cls found (Document_find_one cls filter kw)); cycle 2.
  - unfold Document_find_one. unfold bind at 1. rewrite Hcoll.
    unfold bind at 1. by rewrite (send_eq _ _ _ _ _ Hdrv).
  - done.
  - done.
Qed.

(** X10: [find_one_and_delete] and [find_one_and_update] treat the
    driver's answer the same way: [None] or an empty document gives
    [None] and no instance; any other document gives a new instance of
    the class with the validated state, or the validator's error. *)
Theorem find_one_and_modify_map_nothing_to_None
    w (cls : PyClass) (query : option Doc) (filter : Doc) (update : UpdateSpec) kw
    (h : Collection) (w1 : World S) (found : option Doc) (s' : S) :
  bound_collection cls w = (inr h, w1) →
  (find_one_and_delete h query kw (w_store w) = (inr found, s') →
   (found = None ∨ found = Some ∅ →
    ∃ w', Document_find_one_and_delete cls query kw w = (inr None, w')
          ∧ w_objects w' = w_objects w ∧ w_dicts w' = w_dicts w)
   ∧ (∀ raw, found = Some raw → raw ≠ ∅ →
        match validate cls raw with
        | inr d =>
            ∃ r w', Document_find_one_and_delete cls query kw w
                    = (inr (Some r), w')
                    ∧ instance_of w r = None
                    ∧ o_class <$> instance_of w' r = Some cls
                    ∧ dict_of w' r = Some d
                    ∧ keeps_objects w w'
        | inl e =>
            ∃ w', Document_find_one_and_delete cls query kw w = (inl e, w')
                  ∧ w_objects w' = w_objects w ∧ w_dicts w' = w_dicts w
        end))
  ∧ (find_one_and_update h filter update kw (w_store w) = (inr found, s') →
     (found = None ∨ found = Some ∅ →
      ∃ w', Document_find_one_and_update cls filter update kw w = (inr None, w')
            ∧ w_objects w' = w_objects w ∧ w_dicts w' = w_dicts w)
     ∧ (∀ raw, found = Some raw → raw ≠ ∅ →
          match validate cls raw with
          | inr d =>
              ∃ r w', Document_find_one_and_update cls filter update kw w
                      = (inr (Some r), w')
                      ∧ instance_of w r = None
                      ∧ o_class <$> instance_of w' r = Some cls
                      ∧ dict_of w' r = Some d
                      ∧ keeps_objects w w'
          | inl e =>
              ∃ w', Document_find_one_and_update cls filter update kw w = (inl e, w')
                    ∧ w_objects w' = w_objects w ∧ w_dicts w' = w_dicts w
          end)).
Proof.
  intros Hcoll.
  pose proof (bound_collection_frame _ _ _ _ Hcoll) as (Hobj & Hdic & Hlog & Hsto).
  split; intros Hdrv; rewrite <- Hsto in Hdrv.
  - eapply (found_outcome w _ cls found (Document_find_one_and_delete cls query kw));
      cycle 2.
    + unfold Document_find_one_and_delete. unfold bind at 1. rewrite Hcoll.
      unfold bind at 1. by rewrite (call_eq _ _ _ _ Hdrv).
    + done.
    + done.
  - eapply (found_outcome w _ cls found (Document_find_one_and_update cls filter update kw));
      cycle 2.
    + unfold Document_find_one_and_update. unfold bind at 1. rewrite Hcoll.
      unfold bind at 1. by rewrite (call_eq _ _ _ _ Hdrv).
    + done.
    + done.
Qed.
End Queries.

(** ** Inserting many *)

Section InsertMany.
Context {S : Type} `{!QueryDriver S}.
Implicit Types (w : World S) (kw : Kwargs).

Lemma document_of_Some w r doc :
  document_of w r = Some doc →
  ∃ o d, instance_of w r = Some o ∧ dict_of w r = Some d
         ∧ doc = Document_mongo (o_class o) d None None.
Proof.
  unfold document_of. intros Hdoc.
  destruct (instance_of w r) as [o|]; [|done]. simpl in Hdoc.
  destruct (dict_of w r) as [d|]; [|done]. simpl in Hdoc.
  injection Hdoc as <-. by eexists _, _.
Qed.

Lemma mongo_of_all_eq w objects docs :
  Forall2 (λ r doc, document_of w r = Some doc) objects docs →
  mongo_of_all objects w = (inr docs, w).
Proof.
  induction 1 as [|r doc objects docs Hdoc _ IH]; [done|].
  apply document_of_Some in Hdoc as (o & d & Ho & Hd & ->).
  simpl. unfold bind at 1. rewrite (mongo_of_eq _ _ _ _ Ho Hd).
  unfold bind at 1. by rewrite IH.
Qed.

Lemma dict_of_instance w r d :
  dict_of w r = Some d → ∃ o, instance_of w r = Some o ∧ w_dicts w !! o_dict o = Some d.
Proof.
  unfold dict_of, instance_of. destruct (w_objects w !! r) as [o|]; [|done].
  simpl. intros Hd. by exists o.
Qed.

(** Writing the [__dict__] at one address leaves the objects that keep
    theirs elsewhere reading what they read. *)
Lemma dict_of_other_address w a x r :
  dict_address w r ≠ Some a →
  dict_of (with_dicts (<[a := x]>) w) r = dict_of w r.
Proof.
  unfold dict_address, dict_of, instance_of. simpl.
  destruct (w_objects w !! r) as [o|]; [|done]. simpl. intros Hne.
  rewrite lookup_insert_ne; [done|]. intros ->. by apply Hne.
Qed.

Lemma assign_ids_spec objects : ∀ ids w,
  (∀ r, r ∈ objects → is_Some (dict_of w r)) →
  NoDup (dict_address w <$> objects) →
  ∃ w', assign_ids (zip objects ids) w = (inr (), w')
        ∧ w_objects w' = w_objects w
        ∧ (∀ k r i d, objects !! k = Some r → ids !! k = Some i →
                      dict_of w r = Some d →
                      dict_of w' r = Some (mkDict (Some i) (d_fields d)))
        ∧ (∀ r, (∀ k r', objects !! k = Some r' → k < length ids →
                         dict_address w r' ≠ dict_address w r) →
                dict_of w' r = dict_of w r).
Proof.
  induction objects as [|r objects IH]; intros ids w Hlive Hnd.
  { exists w. split_and!; try done. }
  destruct ids as [|i ids].
  { exists w. split_and!; try done. }
  destruct (Hlive r (list_elem_of_here _ _)) as [d Hd].
  destruct (dict_of_instance _ _ _ Hd) as (o & Ho & Hod).
  assert (Haddr : dict_address w r = Some (o_dict o)).
  { unfold dict_address. by rewrite Ho. }
  simpl in Hnd. apply NoDup_cons in Hnd as [Hhead Hnd].
  set (w1 := with_dicts (<[o_dict o := mkDict (Some i) (d_fields d)]>) w).
  assert (Hsame : ∀ r', dict_address w1 r' = dict_address w r') by done.
  assert (Hother : ∀ r', r' ∈ objects → dict_of w1 r' = dict_of w r').
  { intros r' Hin. apply dict_of_other_address. rewrite <- Haddr. intros Heq.
    apply Hhead. rewrite <- Heq. by apply list_elem_of_fmap_2. }
  destruct (IH ids w1) as (w' & Hrun & Hobj & Hset & Hkeep).
  { intros r' Hin. rewrite Hother by done. apply Hlive. by apply elem_of_cons; right. }
  { exact Hnd. }
  exists w'. split_and!.
  - simpl. unfold bind. rewrite (set_id_eq _ _ _ _ _ Ho Hd). exact Hrun.
  - by rewrite Hobj.
  - intros [|k] r' i' d' Hr' Hi' Hd'; simpl in *.
    + simplify_eq. rewrite Hkeep.
      * unfold dict_of, instance_of in *. simpl. rewrite Ho. simpl.
        by rewrite lookup_insert_eq.
      * intros k r2 Hr2 _. rewrite !Hsame. intros Heq. apply Hhead.
        rewrite <- Heq. apply list_elem_of_fmap_2. by eapply list_elem_of_lookup_2.
    + apply (Hset k r' i' d' Hr' Hi').
      rewrite Hother; [done|]. by eapply list_elem_of_lookup_2.
  - intros r0 Hfar. rewrite Hkeep.
    + apply dict_of_other_address. rewrite <- Haddr.
      intros Heq. by apply (Hfar 0 r); [|simpl; lia|].
    + intros k r2 Hr2 Hk. rewrite !Hsame. apply (Hfar (Datatypes.S k) r2); [done|simpl; lia].
Qed.

(** X11: [insert_many] sends the partial documents of the objects in
    order; when the driver returns, the object at each position carries
    the identifier at that position of [inserted_ids], with its other
    fields as they were, and the objects beyond the end of
    [inserted_ids] are untouched; when the driver raises, the exception
    is passed on and no object has changed.  The objects are distinct
    instances, each with its own [__dict__]. *)
Theorem insert_many_binds_in_order
    w (cls : PyClass) (objects : list nat) kw (docs : list Doc)
    (h : Collection) (w1 : World S) :
  Forall2 (λ r doc, document_of w r = Some doc) objects docs →
  NoDup (dict_address w <$> objects) →
  bound_collection cls w = (inr h, w1) →
  (∀ result s',
     insert_many h docs kw (w_store w) = (inr result, s') →
     ∃ w', Document_insert_many cls objects kw w = (inr (), w')
           ∧ w_objects w' = w_objects w
           ∧ (∀ k r i, objects !! k = Some r → inserted_ids result !! k = Some i →
                       id_of w' r = Some i
                       ∧ d_fields <$> dict_of w' r = d_fields <$> dict_of w r)
           ∧ (∀ k r, objects !! k = Some r → length (inserted_ids result) ≤ k →
                     dict_of w' r = dict_of w r))
  ∧ (∀ e s',
       insert_many h docs kw (w_store w) = (inl e, s') →
       ∃ w', Document_insert_many cls objects kw w = (inl e, w')
             ∧ w_objects w' = w_objects w ∧ w_dicts w' = w_dicts w).
Proof.
  intros Hdocs Hnd Hcoll.
  pose proof (bound_collection_frame _ _ _ _ Hcoll) as Hf.
  pose proof Hf as (Hobj & Hdic & Hlog & Hsto).
  assert (Hdocs1 : Forall2 (λ r doc, document_of w1 r = Some doc) objects docs).
  { eapply Forall2_impl; [exact Hdocs|]. intros r doc Hr. unfold document_of in *.
    by rewrite (instance_of_frame w), (dict_of_frame w). }
  split.
  - intros result s' Hdrv. rewrite <- Hsto in Hdrv.
    set (w2 := mkWorld (w_classes w1) (w_objects w1) (w_dicts w1) (w_log w1) s').
    assert (Hd2 : ∀ r, dict_of w2 r = dict_of w r).
    { intros r. unfold dict_of, w2. simpl. by rewrite Hobj, Hdic. }
    assert (Ha2 : ∀ r, dict_address w2 r = dict_address w r).
    { intros r. unfold dict_address, instance_of, w2. simpl. by rewrite Hobj. }
    destruct (assign_ids_spec objects (inserted_ids result) w2)
      as (w' & Hrun & Hobj' & Hset & Hkeep).
    { intros r Hin. rewrite Hd2.
      apply list_elem_of_lookup_1 in Hin as [k Hk].
      destruct (Forall2_lookup_l _ _ _ _ _ Hdocs Hk) as (doc & _ & Hdoc).
      apply document_of_Some in Hdoc as (o & d & _ & Hd & _). by exists d. }
    { assert (Heq : dict_address w2 <$> objects = dict_address w <$> objects)
        by (apply list_fmap_ext; intros; apply Ha2).
      by rewrite Heq. }
    exists w'. split_and!.
    + unfold Document_insert_many. unfold bind at 1. rewrite Hcoll.
      unfold bind at 1. rewrite (mongo_of_all_eq _ _ _ Hdocs1).
      unfold bind at 1. rewrite (call_eq _ _ _ _ Hdrv). exact Hrun.
    + rewrite Hobj'. simpl. done.
    + intros k r i Hr Hi.
      destruct (Forall2_lookup_l _ _ _ _ _ Hdocs Hr) as (doc & _ & Hdoc).
      apply document_of_Some in Hdoc as (o & d & _ & Hd & _).
      assert (Hd2' : dict_of w2 r = Some d) by by rewrite Hd2.
      rewrite (id_of_dict _ _ _ (Hset k r i d Hr Hi Hd2')).
      by rewrite (Hset k r i d Hr Hi Hd2'), Hd.
    + intros k r Hr Hlen. rewrite Hkeep; [apply Hd2|].
      intros k' r' Hr' Hk'. rewrite !Ha2. intros Heq.
      assert (k' = k); [|lia].
      eapply (NoDup_lookup _ _ _ _ Hnd); rewrite list_lookup_fmap.
      * by rewrite Hr'.
      * by rewrite Hr, Heq.
  - intros e s' Hdrv. rewrite <- Hsto in Hdrv. eexists. split_and!.
    + unfold Document_insert_many. unfold bind at 1. rewrite Hcoll.
      unfold bind at 1. rewrite (mongo_of_all_eq _ _ _ Hdocs1).
      unfold bind at 1. by rewrite (call_eq _ _ _ _ Hdrv).
    + done.
    + done.
Qed.
End InsertMany.

(** ** Iterating over [find] *)

Section Find.
Context {S : Type} `{!QueryDriver S} `{!Validator}.
Implicit Types (w : World S) (kw : Kwargs).

Lemma new_instance_run w cls d :
  new_instance cls d w
  = (inr (fresh (dom (w_objects w))), after (new_instance cls d) w).
Proof. reflexivity. Qed.

Lemma keeps_objects_refl w : keeps_objects w w.
Proof. by split. Qed.

Lemma keeps_objects_trans w1 w2 w3 :
  keeps_objects w1 w2 → keeps_objects w2 w3 → keeps_objects w1 w3.
Proof. intros [Hi Hd] [Hi' Hd']. split; eauto. Qed.

Lemma keeps_objects_same w w' :
  w_objects w' = w_objects w → w_dicts w' = w_dicts w → keeps_objects w w'.
Proof.
  intros Hobj Hdic. split.
  - intros r o. unfold instance_of. by rewrite Hobj.
  - intros r d. unfold dict_of. by rewrite Hobj, Hdic.
Qed.

Lemma cursor_take_spec n cls c : ∀ w rs w',
  cursor_take n cls c w = (inr rs, w') →
  length rs ≤ n ∧ NoDup rs ∧ Forall (yielded cls w w') rs ∧ keeps_objects w w'.
Proof.
  induction n as [|n IH]; intros w rs w' Hrun; simpl in Hrun.
  { unfold ret in Hrun. simplify_eq. split_and!; [done|apply NoDup_nil_2|done|].
    apply keeps_objects_refl. }
  unfold bind at 1 in Hrun.
  destruct (call (cursor_next c) w) as [[e|[raw|]] w0] eqn:Hnext; [done| |].
  - assert (Hk0 : keeps_objects w w0).
    { unfold call in Hnext. destruct (cursor_next c (w_store w)).
      simplify_eq. by apply keeps_objects_same. }
    assert (Hnone0 : ∀ r, instance_of w0 r = None → instance_of w r = None).
    { intros r Hr. destruct (instance_of w r) as [o|] eqn:Ho; [|done].
      destruct Hk0 as [Hi _]. rewrite (Hi r o Ho) in Hr. done. }
    unfold bind at 1 in Hrun. unfold construct, bind, lift in Hrun.
    destruct (validate cls raw) as [e|d] eqn:Hval; [done|].
    unfold ret at 1 in Hrun. rewrite (new_instance_run w0 cls d) in Hrun.
    set (r := fresh (dom (w_objects w0))) in *.
    set (w1 := after (new_instance cls d) w0) in *.
    destruct (cursor_take n cls c w1) as [[e|rest] w2] eqn:Hrest; [done|].
    unfold ret in Hrun. simplify_eq.
    destruct (IH _ _ _ Hrest) as (Hlen & Hnd & Hall & Hk1).
    pose proof (alloc_keeps_objects w0 cls d) as Hk01. fold w1 in Hk01.
    pose proof (alloc_new_instance w0 cls d) as Hnew. fold r w1 in Hnew.
    pose proof (alloc_new_dict w0 cls d) as Hnewd. fold r w1 in Hnewd.
    split_and!.
    + simpl. lia.
    + apply NoDup_cons. split; [|done]. intros Hin.
      rewrite Forall_forall in Hall. destruct (Hall r Hin) as (Hfresh & _).
      rewrite Hnew in Hfresh. done.
    + apply Forall_cons. split.
      * split_and!.
        -- apply Hnone0, fresh_instance.
        -- destruct Hk1 as [Hi _]. by rewrite (Hi _ _ Hnew).
        -- exists raw, d. split; [done|]. destruct Hk1 as [_ Hd]. by apply Hd.
      * eapply Forall_impl; [exact Hall|]. intros r' (Hfresh & Hcls & Hstate).
        split_and!; [|done|done].
        apply Hnone0. destruct (instance_of w0 r') as [o|] eqn:Ho; [|done].
        destruct Hk01 as [Hi _]. rewrite (Hi r' o Ho) in Hfresh. done.
    + eapply keeps_objects_trans; [exact Hk0|].
      eapply keeps_objects_trans; [exact Hk01|exact Hk1].
  - unfold ret in Hrun. simplify_eq.
    split_and!; [simpl; lia|apply NoDup_nil_2|done|].
    unfold call in Hnext. destruct (cursor_next c (w_store w)).
    simplify_eq. by apply keeps_objects_same.
Qed.

(** X12: whatever part of [find] is consumed, the instances it yields
    are at most as many as asked for, pairwise distinct, none of them an
    object that existed before, each an instance of the class holding a
    state the validator produced; every object that existed reads what
    it read. *)
Theorem find_yields_new_instances
    (n : nat) (cls : PyClass) (filter : option Doc) kw w
    (rs : list nat) (w' : World S) :
  Document_find_take n cls filter kw w = (inr rs, w') →
  length rs ≤ n
  ∧ NoDup rs
  ∧ Forall (yielded cls w w') rs
  ∧ keeps_objects w w'.
Proof.
  intros Hrun. destruct n as [|n].
  { unfold Document_find_take, ret in Hrun. simplify_eq.
    split_and!; [done|apply NoDup_nil_2|done|apply keeps_objects_refl]. }
  unfold Document_find_take in Hrun. unfold bind at 1 in Hrun.
  destruct (bound_collection cls w) as [[e|h] w1] eqn:Hcoll; [done|].
  pose proof (bound_collection_frame _ _ _ _ Hcoll) as (Hobj & Hdic & _ & _).
  unfold bind at 1 in Hrun.
  destruct (call (find_cursor h filter kw) w1) as [[e|c] w2] eqn:Hopen; [done|].
  assert (Hk : keeps_objects w w2).
  { unfold call in Hopen. destruct (find_cursor h filter kw (w_store w1)).
    simplify_eq. by apply keeps_objects_same. }
  destruct (cursor_take_spec _ _ _ _ _ _ Hrun) as (Hlen & Hnd & Hall & Hk2).
  split_and!; [done|done| |by eapply keeps_objects_trans].
  eapply Forall_impl; [exact Hall|]. intros r (Hfresh & Hcls & Hstate).
  split_and!; [|done|done].
  destruct (instance_of w r) as [o|] eqn:Ho; [|done].
  destruct Hk as [Hi _]. rewrite (Hi r o Ho) in Hfresh. done.
Qed.
End Find.

(** ** How the writing methods compose and fail *)

Section Compose.
Context {S : Type} `{!Driver S} `{!Validator}.
Implicit Types (w : World S) (self other : nat) (kw : Kwargs).

Lemma bound_collection_inv w cls h w1 :
  bound_collection cls w = (inr h, w1) →
  Document_collection cls w = (inr (Some h), w1).
Proof.
  unfold bound_collection, bind. intros Hrun.
  destruct (Document_collection cls w) as [[e|[c|]] w2]; unfold ret, raise in Hrun;
    by simplify_eq.
Qed.

(** [collection()] written out by cases. *)
Lemma collection_run w cls :
  Document_collection cls w
  = match c_mongo cls with
    | None => (inl (AttributeError "__mongo__"), w)
    | Some meta =>
        match class_db w cls with
        | None => (inl (AttributeError "Accessing database without using it first."), w)
        | Some d =>
            if match class_collection w cls with
               | Some h => bool_decide (database h ≠ d)
               | None => true
               end
            then match collection meta with
                 | None => (inl (AttributeError "collection"), w)
                 | Some name =>
                     let w' := with_classes (λ attrs,
                       <[c_id cls := mkClassAttrs (a_db (own_attrs attrs (c_id cls)))
                           (Some (get_collection d name (codec_options meta)
                                    (read_preference meta) (write_concern meta)
                                    (read_concern meta)))]> attrs) w in
                     (inr (class_collection w' cls), w')
                 end
            else (inr (class_collection w cls), w)
        end
    end.
Proof.
  unfold Document_collection, class_mongo.
  destruct (c_mongo cls) as [meta|]; [|done].
  unfold bind at 1. unfold ret at 1. unfold bind at 1. unfold gets at 1.
  destruct (class_collection w cls) as [h|] eqn:Hc.
  - unfold bind at 1. unfold bind at 1. unfold Document_db at 1.
    unfold bind at 1. unfold gets at 1.
    destruct (class_db w cls) as [d|] eqn:Hd; [|done].
    unfold ret at 1. unfold ret at 1.
    destruct (bool_decide (database h ≠ d)).
    + unfold bind at 1. unfold bind at 1. unfold Document_db at 1.
      unfold bind at 1. unfold gets at 1. rewrite Hd. unfold ret at 1.
      unfold bind at 1.
      destruct (collection meta) as [name|]; [|done].
      unfold ret at 1. unfold set_class_collection, modify, gets. done.
    + unfold bind at 1. unfold ret at 1. unfold gets. by rewrite Hc.
  - unfold bind at 1. unfold ret at 1.
    unfold bind at 1. unfold bind at 1. unfold Document_db at 1.
    unfold bind at 1. unfold gets at 1.
    destruct (class_db w cls) as [d|] eqn:Hd; [|done].
    unfold ret at 1. unfold bind at 1.
    destruct (collection meta) as [name|]; [|done].
    unfold ret at 1. unfold set_class_collection, modify, gets. done.
Qed.

(** [collection()] reads and writes the class attributes only. *)
Lemma collection_transport w cls r w1 objects dicts log (store : S) :
  Document_collection cls w = (r, w1) →
  Document_collection cls (mkWorld (w_classes w) objects dicts log store)
  = (r, mkWorld (w_classes w1) objects dicts log store).
Proof.
  rewrite !collection_run.
  change (class_db (mkWorld (w_classes w) objects dicts log store) cls)
    with (class_db w cls).
  change (class_collection (mkWorld (w_classes w) objects dicts log store) cls)
    with (class_collection w cls).
  intros Hrun. repeat case_match; simplify_eq; try done.
  all: unfold class_collection, with_classes in *; simpl in *; by simplify_eq.
Qed.

(** Asked again in a world with the same class attributes, the class
    hands out the handle it handed out. *)
Lemma bound_collection_again w cls rest h w1 objects dicts log (store : S) :
  c_mro cls = c_id cls :: rest →
  bound_collection cls w = (inr h, w1) →
  bound_collection cls (mkWorld (w_classes w1) objects dicts log store)
  = (inr h, mkWorld (w_classes w1) objects dicts log store).
Proof.
  intros Hmro Hrun%bound_collection_inv.
  destruct (collection_stable_core w cls rest h w1 Hmro Hrun) as (_ & Hagain & _).
  unfold bound_collection, bind.
  by rewrite (collection_transport w1 cls _ w1 objects dicts log store Hagain).
Qed.

(** X13: [update(..., reload=True)] sends the update and then reloads.
    When the document is then no longer found, the call raises
    [TypeError] although the update was sent, and the instance keeps
    its state; when it is found and validates, the call returns whether
    one document was modified and the instance reads the fetched
    state. *)
Theorem update_with_reload
    w self (update : UpdateSpec) kw (o : Instance) (d : InstDict) (i : Id)
    (rest : list ClassId) (h : Collection) (w1 : World S)
    (result : UpdateResult) (s1 : S) :
  instance_of w self = Some o → dict_of w self = Some d → d_id d = Some i →
  c_mro (o_class o) = c_id (o_class o) :: rest →
  bound_collection (o_class o) w = (inr h, w1) →
  update_one h {["_id" := ident_value i]} update kw (w_store w) = (inr result, s1) →
  let sent := [UpdateOne h {["_id" := ident_value i]} update kw;
               FindOne h (Some {["_id" := ident_value i]}) []] in
  (∀ s2,
     find_one h (Some {["_id" := ident_value i]}) [] s1 = (inr None, s2) →
     ∃ msg w', Document_update self update true kw w = (inl (TypeError msg), w')
               ∧ w_log w' = w_log w ++ sent
               ∧ dict_of w' self = Some d)
  ∧ (∀ raw d' s2,
       find_one h (Some {["_id" := ident_value i]}) [] s1 = (inr (Some raw), s2) →
       validate (o_class o) raw = inr d' →
       ∃ w', Document_update self update true kw w
             = (inr (bool_decide (modified_count result = 1%Z)), w')
             ∧ w_log w' = w_log w ++ sent
             ∧ dict_of w' self = Some d').
Proof.
  intros Ho Hd Hid Hmro Hcoll Hdrv sent.
  pose proof (bound_collection_frame _ _ _ _ Hcoll) as (Hobj & Hdic & Hlog & Hsto).
  rewrite <- Hsto in Hdrv.
  set (w2 := mkWorld (w_classes w1) (w_objects w1) (w_dicts w1)
               (w_log w1 ++ [UpdateOne h {["_id" := ident_value i]} update kw]) s1).
  assert (Ho2 : instance_of w2 self = Some o).
  { unfold instance_of, w2. simpl. by rewrite Hobj. }
  assert (Hd2 : dict_of w2 self = Some d).
  { unfold dict_of, w2. simpl. by rewrite Hobj, Hdic. }
  assert (Hcoll2 : bound_collection (o_class o) w2 = (inr h, w2)).
  { by apply (bound_collection_again w _ rest). }
  assert (Hrun : Document_update self update true kw w
                 = bind (Document_reload self [])
                     (λ _, ret (bool_decide (modified_count result = 1%Z))) w2).
  { unfold Document_update.
    unfold bind at 1. rewrite (get_id_eq _ _ _ Hd), Hid.
    unfold bind at 1. rewrite (get_instance_eq _ _ _ Ho).
    unfold bind at 1. rewrite Hcoll.
    unfold bind at 1. by rewrite (send_eq _ _ _ _ _ Hdrv). }
  rewrite Hrun. clear Hrun. split.
  - intros s2 Hfind.
    unfold bind at 1.
    rewrite (reload_sends w2 self [] o d i h w2 None s2 Ho2 Hd2 Hid Hcoll2 Hfind).
    unfold bind, construct, raise. eexists _, _. split; [done|]. split.
    + simpl. rewrite Hlog. by rewrite <- app_assoc.
    + unfold dict_of in *. simpl in *. done.
  - intros raw d' s2 Hfind Hval.
    unfold bind at 1.
    rewrite (reload_sends w2 self [] o d i h w2 (Some raw) s2 Ho2 Hd2 Hid Hcoll2 Hfind).
    set (w3 := mkWorld _ _ _ _ _).
    assert (Ho3 : instance_of w3 self = Some o) by done.
    destruct (swap_with_new w3 (o_class o) d' self o Ho3)
      as (Hset & Hdict & _ & _ & _).
    unfold bind. rewrite (construct_eq _ _ _ _ Hval), Hset. unfold ret.
    eexists. split; [done|]. split; [|done].
    simpl. rewrite Hlog. by rewrite <- app_assoc.
Qed.

(** X14: [reload] on an instance without identifier raises
    [AssertionError] and leaves the world as it was; when the fetched
    document does not validate, the validator's error is passed on, no
    object is made or changed, and the instance keeps the state it
    had. *)
Theorem reload_failures_keep_state
    w self kw (o : Instance) (d : InstDict) :
  instance_of w self = Some o → dict_of w self = Some d →
  (d_id d = None → Document_reload self kw w = (inl AssertionError, w))
  ∧ (∀ i h w1 raw e s',
       d_id d = Some i →
       bound_collection (o_class o) w = (inr h, w1) →
       find_one h (Some {["_id" := ident_value i]}) kw (w_store w) = (inr (Some raw), s') →
       validate (o_class o) raw = inl e →
       ∃ w', Document_reload self kw w = (inl e, w')
             ∧ w_objects w' = w_objects w ∧ w_dicts w' = w_dicts w
             ∧ dict_of w' self = Some d).
Proof.
  intros Ho Hd. split.
  - intros Hid. unfold Document_reload, bind. by rewrite (get_id_eq _ _ _ Hd), Hid.
  - intros i h w1 raw e s' Hid Hcoll Hfind Hval.
    rewrite (reload_sends _ _ _ _ _ _ _ _ _ _ Ho Hd Hid Hcoll Hfind).
    unfold bind, construct, lift, bind. rewrite Hval. unfold raise.
    eexists. split; [done|]. split_and!; [done|done|].
    unfold dict_of in *. simpl. done.
Qed.

(** What [find_one_and_replace] does up to the answer of the driver. *)
Lemma find_one_and_replace_sends
    w cls filter replacement return_document kw data h w1 answer s' :
  replacement_data w replacement = Some data →
  bound_collection cls w = (inr h, w1) →
  find_one_and_replace h filter data return_document kw (w_store w) = (answer, s') →
  let w2 := mkWorld (w_classes w1) (w_objects w) (w_dicts w)
              (w_log w ++ [FindOneAndReplace h filter data return_document kw]) s' in
  match answer with
  | inl e =>
      Document_find_one_and_replace cls filter replacement return_document kw w
      = (inl e, w2)
  | inr None =>
      Document_find_one_and_replace cls filter replacement return_document kw w
      = (inr None, w2)
  | inr (Some raw) =>
      ∀ e, validate cls raw = inl e →
           Document_find_one_and_replace cls filter replacement return_document kw w
           = (inl e, w2)
  end.
Proof.
  intros Hdata Hcoll Hdrv w2.
  pose proof (bound_collection_frame _ _ _ _ Hcoll) as (Hobj & Hdic & Hlog & Hsto).
  rewrite <- Hsto in Hdrv. unfold w2. rewrite <- Hobj, <- Hdic, <- Hlog.
  destruct replacement as [document|r]; simpl in Hdata.
  - injection Hdata as ->.
    destruct answer as [e|[raw|]]; [|intros e Hval|].
    all: unfold Document_find_one_and_replace.
    all: unfold bind at 1; unfold ret at 1.
    all: unfold bind at 1; rewrite Hcoll.
    all: unfold bind at 1; rewrite (send_eq _ _ _ _ _ Hdrv).
    + done.
    + unfold bind at 1. unfold construct, bind, lift. by rewrite Hval.
    + done.
  - destruct (isinstance w r Document_id) eqn:Hisdoc; [|done].
    destruct (instance_of w r) as [o|] eqn:Ho; [|done].
    destruct (dict_of w r) as [d|] eqn:Hd; [|done].
    simpl in Hdata. injection Hdata as <-.
    destruct answer as [e|[raw|]]; [|intros e Hval|].
    all: unfold Document_find_one_and_replace.
    all: unfold bind at 1; unfold bind at 1; unfold gets at 1; rewrite Hisdoc.
    all: unfold bind at 1; rewrite (mongo_of_eq _ _ _ _ Ho Hd); unfold ret at 1.
    all: unfold bind at 1; rewrite Hcoll.
    all: unfold bind at 1; rewrite (send_eq _ _ _ _ _ Hdrv).
    + done.
    + unfold bind at 1. unfold construct, bind, lift. by rewrite Hval.
    + done.
Qed.

(** X15: when [find_one_and_replace] gets [None] from the driver it
    returns [None]; when the driver raises, or the returned document
    does not validate, the exception is passed on.  In all three cases
    no object is made and none is changed: a replacement instance keeps
    the state it had, also when the post-replace view was asked for. *)
Theorem find_one_and_replace_failures_keep_state
    w (cls : PyClass) (filter : Doc) (replacement : Doc + nat)
    (return_document : bool) kw (data : Doc) (h : Collection) (w1 : World S) :
  replacement_data w replacement = Some data →
  bound_collection cls w = (inr h, w1) →
  (∀ s', find_one_and_replace h filter data return_document kw (w_store w)
         = (inr None, s') →
         ∃ w', Document_find_one_and_replace cls filter replacement return_document kw w
               = (inr None, w')
               ∧ w_objects w' = w_objects w ∧ w_dicts w' = w_dicts w)
  ∧ (∀ e s', find_one_and_replace h filter data return_document kw (w_store w)
             = (inl e, s') →
             ∃ w', Document_find_one_and_replace cls filter replacement return_document kw w
                   = (inl e, w')
                   ∧ w_objects w' = w_objects w ∧ w_dicts w' = w_dicts w)
  ∧ (∀ raw e s', find_one_and_replace h filter data return_document kw (w_store w)
                 = (inr (Some raw), s') →
                 validate cls raw = inl e →
                 ∃ w', Document_find_one_and_replace cls filter replacement
                         return_document kw w = (inl e, w')
                       ∧ w_objects w' = w_objects w ∧ w_dicts w' = w_dicts w).
Proof.
  intros Hdata Hcoll. split_and!.
  - intros s' Hdrv.
    pose proof (find_one_and_replace_sends _ _ _ _ _ _ _ _ _ _ _ Hdata Hcoll Hdrv) as Hrun.
    simpl in Hrun. by eexists.
  - intros e s' Hdrv.
    pose proof (find_one_and_replace_sends _ _ _ _ _ _ _ _ _ _ _ Hdata Hcoll Hdrv) as Hrun.
    simpl in Hrun. by eexists.
  - intros raw e s' Hdrv Hval.
    pose proof (find_one_and_replace_sends _ _ _ _ _ _ _ _ _ _ _ Hdata Hcoll Hdrv) as Hrun.
    simpl in Hrun. specialize (Hrun e Hval). by eexists.
Qed.

(** X16: [replace] changes nothing but the identifier of the
    replacement: its other fields are what they were, no object is made
    or dropped, and every object whose [__dict__] is not the
    replacement's reads what it read; when the driver raises, the
    exception is passed on and nothing at all has changed. *)
Theorem replace_touches_only_the_identifier
    w self other kw (o_s o_r : Instance) (d_s d_r : InstDict)
    (h : Collection) (w1 : World S) :
  instance_of w self = Some o_s → dict_of w self = Some d_s →
  instance_of w other = Some o_r → dict_of w other = Some d_r →
  bound_collection (o_class o_s) w = (inr h, w1) →
  let filter := Document_mongo (o_class o_s) d_s None None in
  let replacement := Document_mongo (o_class o_r) d_r None None in
  (∀ result s',
     replace_one h filter replacement kw (w_store w) = (inr result, s') →
     ∃ w', Document_replace self other kw w = (inr other, w')
           ∧ w_objects w' = w_objects w
           ∧ d_fields <$> dict_of w' other = Some (d_fields d_r)
           ∧ (∀ r, dict_address w r ≠ dict_address w other →
                   dict_of w' r = dict_of w r))
  ∧ (∀ e s',
       replace_one h filter replacement kw (w_store w) = (inl e, s') →
       ∃ w', Document_replace self other kw w = (inl e, w')
             ∧ w_objects w' = w_objects w ∧ w_dicts w' = w_dicts w).
Proof.
  intros Hos Hds Hor Hdr Hcoll filter replacement.
  pose proof (bound_collection_frame _ _ _ _ Hcoll) as Hf.
  pose proof Hf as (Hobj & Hdic & Hlog & Hsto).
  assert (Hos1 : instance_of w1 self = Some o_s) by by rewrite (instance_of_frame w).
  assert (Hds1 : dict_of w1 self = Some d_s) by by rewrite (dict_of_frame w).
  assert (Hor1 : instance_of w1 other = Some o_r) by by rewrite (instance_of_frame w).
  assert (Hdr1 : dict_of w1 other = Some d_r) by by rewrite (dict_of_frame w).
  split.
  - intros result s' Hdrv. rewrite <- Hsto in Hdrv.
    set (w2 := mkWorld (w_classes w1) (w_objects w1) (w_dicts w1)
                 (w_log w1 ++ [ReplaceOne h filter replacement kw]) s').
    assert (Hds2 : dict_of w2 self = Some d_s) by done.
    assert (Hor2 : instance_of w2 other = Some o_r) by done.
    assert (Hdr2 : dict_of w2 other = Some d_r) by done.
    assert (Hd2 : ∀ r, dict_of w2 r = dict_of w r).
    { intros r. unfold dict_of, w2. simpl. by rewrite Hobj, Hdic. }
    assert (Haddr : dict_address w other = Some (o_dict o_r)).
    { unfold dict_address. by rewrite Hor. }
    assert (Hset : ∀ v,
      ∃ w', set_id other v w2 = (inr (), w')
            ∧ w_objects w' = w_objects w
            ∧ d_fields <$> dict_of w' other = Some (d_fields d_r)
            ∧ (∀ r, dict_address w r ≠ dict_address w other →
                    dict_of w' r = dict_of w r)).
    { intros v. rewrite (set_id_eq _ _ _ _ _ Hor2 Hdr2). eexists. split_and!; [done|done| |].
      - unfold dict_of, instance_of in *. simpl in *. rewrite Hor1. simpl.
        by rewrite lookup_insert_eq.
      - intros r Hr. rewrite <- Hd2. apply dict_of_other_address.
        unfold dict_address, instance_of, w2 in *. simpl. rewrite Hobj.
        by rewrite <- Haddr. }
    assert (Hrun : Document_replace self other kw w
                   = bind (if truth (upserted_id result)
                           then set_id other (upserted_id result)
                           else
                             bind (get_id other) (λ rid,
                               match rid with
                               | None => bind (get_id self) (λ sid, set_id other sid)
                               | Some _ => ret ()
                               end)) (λ _, ret other) w2).
    { unfold Document_replace. unfold bind at 1.
      rewrite (get_instance_eq _ _ _ Hos). unfold bind at 1. rewrite Hcoll.
      unfold bind at 1. rewrite (mongo_of_eq _ _ _ _ Hos1 Hds1).
      unfold bind at 1. rewrite (mongo_of_eq _ _ _ _ Hor1 Hdr1).
      unfold bind at 1. by rewrite (send_eq _ _ _ _ _ Hdrv). }
    rewrite Hrun. clear Hrun. unfold bind.
    destruct (truth (upserted_id result)).
    + destruct (Hset (upserted_id result)) as (w' & -> & ?). by exists w'.
    + rewrite (get_id_eq _ _ _ Hdr2). destruct (d_id d_r) as [i|] eqn:Hid.
      * eexists. split; [done|]. split_and!; [done| |].
        -- by rewrite Hdr2.
        -- intros r _. apply Hd2.
      * rewrite (get_id_eq _ _ _ Hds2).
        destruct (Hset (d_id d_s)) as (w' & -> & ?). by exists w'.
  - intros e s' Hdrv. rewrite <- Hsto in Hdrv. eexists. split_and!.
    + unfold Document_replace. unfold bind at 1.
      rewrite (get_instance_eq _ _ _ Hos). unfold bind at 1. rewrite Hcoll.
      unfold bind at 1. rewrite (mongo_of_eq _ _ _ _ Hos1 Hds1).
      unfold bind at 1. rewrite (mongo_of_eq _ _ _ _ Hor1 Hdr1).
      unfold bind at 1. by rewrite (send_eq _ _ _ _ _ Hdrv).
    + done.
    + done.
Qed.

(** X17: after a successful [insert] of an instance whose aliases are
    pairwise distinct, the partial document of the instance is the one
    that was sent with the ["_id"] entry set to the identifier the
    driver reported: everything the instance sends from then on, a
    second [insert] included, carries that identifier. *)
Theorem insert_then_mongo_carries_identifier
    w self kw (o : Instance) (d : InstDict) (h : Collection) (w1 : World S)
    (result : InsertOneResult) (s' : S) :
  instance_of w self = Some o →
  dict_of w self = Some d →
  NoDup (dict_key (model_fields (o_class o)) <$> (dict_items d).*1) →
  bound_collection (o_class o) w = (inr h, w1) →
  insert_one h (Document_mongo (o_class o) d None None) kw (w_store w)
  = (inr result, s') →
  ∃ w', Document_insert self kw w = (inr (), w')
        ∧ document_of w' self
          = Some (<["_id" := ident_value (inserted_id result)]>
                    (Document_mongo (o_class o) d None None)).
Proof.
  intros Ho Hd Hnd Hcoll Hdrv.
  pose proof (bound_collection_frame _ _ _ _ Hcoll) as Hf.
  pose proof Hf as (Hobj & Hdic & Hlog & Hsto).
  assert (Ho1 : instance_of w1 self = Some o) by by rewrite (instance_of_frame w).
  assert (Hd1 : dict_of w1 self = Some d) by by rewrite (dict_of_frame w).
  rewrite <- Hsto in Hdrv. eexists. split.
  - unfold Document_insert, bind.
    rewrite (get_instance_eq _ _ _ Ho), Hcoll, (mongo_of_eq _ _ _ _ Ho1 Hd1).
    rewrite (send_eq _ _ _ _ _ Hdrv).
    by erewrite set_id_eq.
  - unfold document_of, dict_of, instance_of in *. simpl in *.
    rewrite Ho1. simpl. rewrite lookup_insert_eq. simpl.
    by rewrite Document_mongo_set_id.
Qed.
End Compose.

End Model.

(** * The properties on the examples *)

(** The examples are about [User], whose identifiers are [ObjectId]s,
    and about [Ticket], whose identifiers are integers. *)

Lemma mongo_partial_document_witness :
  let d : InstDict (Id:=ObjectId) := mkDict None [("name", VStr "ada"); ("age", VInt 0)] in
  Document_mongo User d None None !! "name" = Some (VStr "ada")
  ↔ ∃ name, (name, VStr "ada") ∈ dict_items d
            ∧ dict_key (model_fields User) name = "name"
            ∧ holds_default (model_fields User) name (VStr "ada") = false.
Proof.
  intros d. apply (mongo_partial_document User d). decide_closed.
Defined.

Example mongo_of_new_user :
  Document_mongo User (mkDict (Id:=ObjectId) None [("name", VStr "ada"); ("age", VInt 36)]) None None
  = {["name" := VStr "ada"; "years" := VInt 36]}.
Proof. vm_compute. reflexivity. Qed.

Example mongo_of_stored_user :
  Document_mongo User (mkDict (Some (Oid 7)) [("name", VStr "ada"); ("age", VInt 0)]) None None
  = {["_id" := VOid (Oid 7); "name" := VStr "ada"]}.
Proof. vm_compute. reflexivity. Qed.

Lemma insert_binds_identifier_after_success_witness :
  let w := ada_world [Inserted (mkInsertOneResult (Oid 42))] in
  ∃ w', Document_insert 0 [] w = (inr (), w')
        ∧ id_of w' 0 = Some (Oid 42)
        ∧ w_log w' = w_log w ++ [InsertOne users_collection (Document_mongo User (ada (Id:=ObjectId)) None None) []].
Proof.
  intros w.
  destruct (insert_binds_identifier_after_success w 0 [] (mkInstance User 0) ada
              users_collection (after (bound_collection User) w)) as [Hok _].
  - reflexivity.
  - reflexivity.
  - vm_compute. reflexivity.
  - apply (Hok (mkInsertOneResult (Oid 42)) []). reflexivity.
Defined.



Lemma reload_swaps_state_in_place_witness :
  let w := pair_world (Oid 7) [Found (Some (fetched_ada (Oid 7)))] in
  let d' := mkDict (Some (Oid 7)) [("name", VStr "ada"); ("age", VInt 40)] in
  ∃ w', Document_reload 0 [] w = (inr (), w')
        ∧ w_log w' = w_log w ++ [FindOne users_collection (Some {["_id" := VOid (Oid 7)]}) []]
        ∧ dict_of w' 0 = Some d'
        ∧ o_class <$> instance_of w' 0 = Some User
        ∧ id_of w' 0 = d_id d'
        ∧ (d_id d' = Some (Oid 7) → id_of w' 0 = id_of w 0)
        ∧ (∀ r dr, r ≠ 0 → dict_of w r = Some dr → dict_of w' r = Some dr)
        ∧ (∀ r o', r ≠ 0 → instance_of w r = Some o' → instance_of w' r = Some o').
Proof.
  intros w d'. change (VOid (Oid 7)) with (ident_value (Oid 7)).
  apply (reload_swaps_state_in_place w 0 [] (mkInstance User 0) (stored_ada (Oid 7))
           d' (Oid 7)
           users_collection (after (bound_collection User) w) (fetched_ada (Oid 7)) []).
  - reflexivity.
  - reflexivity.
  - reflexivity.
  - vm_compute. reflexivity.
  - reflexivity.
  - vm_compute. reflexivity.
Defined.

(** C6 does not hold of the identifier: the fetched document comes
    back without [_id], as a projection among the forwarded arguments
    makes it; [reload] returns, and the instance has lost its
    identifier. *)
Lemma reload_drops_projected_identifier :
  let w := pair_world (Oid 7) [Found (Some projected_ada)] in
  ∃ w', Document_reload 0 [("projection", VStr "name, years")] w = (inr (), w')
        ∧ id_of w 0 = Some (Oid 7)
        ∧ id_of w' 0 = None
        ∧ id_of w' 0 ≠ id_of w 0.
Proof. eexists. vm_compute. split_and!; (reflexivity || discriminate). Qed.

Lemma reload_of_missing_document_raises_witness :
  let w := pair_world (Oid 7) [Found None] in
  ∃ msg w', Document_reload 0 [] w = (inl (TypeError msg), w')
            ∧ w_objects w' = w_objects w ∧ w_dicts w' = w_dicts w.
Proof.
  intros w.
  apply (reload_of_missing_document_raises w 0 [] (mkInstance User 0) (stored_ada (Oid 7)) (Oid 7)
           users_collection (after (bound_collection User) w) []).
  - reflexivity.
  - reflexivity.
  - reflexivity.
  - vm_compute. reflexivity.
  - reflexivity.
Defined.

Lemma update_requires_identifier_witness :
  let w := pair_world (Oid 7) [Updated (mkUpdateResult 1 1 None)] in
  let spec : UpdateSpec := {["$set" := {["years" := VInt 40]}]} in
  (d_id (ada (Id:=ObjectId)) = None → Document_update 1 spec false [] w = (inl AssertionError, w))
  ∧ ∃ r w' rest,
      Document_update 0 spec false [] w = (r, w')
      ∧ w_log w' = w_log w ++ UpdateOne users_collection {["_id" := VOid (Oid 7)]} spec [] :: rest
      ∧ (false = false → r = inr (bool_decide (1 = 1)%Z) ∧ rest = [])
      ∧ (∀ b, r = inr b → (b = true ↔ (1 = 1)%Z)).
Proof.
  intros w spec. split.
  - apply (update_requires_identifier w 1 spec false [] (mkInstance User 1) ada);
      reflexivity.
  - destruct (update_requires_identifier w 0 spec false [] (mkInstance User 0) (stored_ada (Oid 7)))
      as [_ Hset]; [reflexivity|reflexivity|].
    apply (Hset (Oid 7) users_collection (after (bound_collection User) w)
             (mkUpdateResult 1 1 None) []).
    + reflexivity.
    + vm_compute. reflexivity.
    + reflexivity.
Defined.

Lemma find_one_and_replace_in_place_witness :
  let w := pair_world (Oid 7) [Found (Some (fetched_ada (Oid 7)))] in
  ∃ result w',
    Document_find_one_and_replace User {["name" := VStr "ada"]} (inr 1) true [] w
    = (inr (Some result), w')
    ∧ dict_of w' result = Some (mkDict (Some (Oid 7)) [("name", VStr "ada"); ("age", VInt 40)])
    ∧ (∀ r, @inr Doc nat 1 = inr r → true = true → isinstance w r (c_id User) = true →
            result = r ∧ o_class <$> instance_of w' r = o_class <$> instance_of w r)
    ∧ (true = false ∨ (∀ r, @inr Doc nat 1 = inr r → isinstance w r (c_id User) = false) →
       instance_of w result = None
       ∧ o_class <$> instance_of w' result = Some User
       ∧ ∀ r dr, dict_of w r = Some dr → dict_of w' r = Some dr).
Proof.
  intros w.
  apply (find_one_and_replace_in_place w User {["name" := VStr "ada"]} (inr 1) true []
           (Document_mongo User (ada (Id:=ObjectId)) None None) users_collection
           (after (bound_collection User) w) (fetched_ada (Oid 7)) []
           (mkDict (Some (Oid 7)) [("name", VStr "ada"); ("age", VInt 40)])).
  - vm_compute. reflexivity.
  - vm_compute. reflexivity.
  - reflexivity.
  - vm_compute. reflexivity.
Defined.

(** ** The further properties on the examples *)

Lemma use_binds_database_for_subclasses_witness :
  ∃ w', Document_use Document (Some 1) (empty_world (Id:=ObjectId) []) = (inr (), w')
        ∧ Document_db Admin w' = (inr 1, w')
        ∧ same_heap (empty_world (Id:=ObjectId) []) w'
        ∧ (∀ other, c_id Document ∉ c_mro other →
                    class_db w' other = class_db (empty_world (Id:=ObjectId) []) other)
        ∧ (∀ other, class_collection w' other
                    = class_collection (empty_world (Id:=ObjectId) []) other).
Proof.
  apply (use_binds_database_for_subclasses (empty_world (Id:=ObjectId) []) Document Admin 1
           [c_id Admin; c_id User] [BaseModel_id; object_id]).
  - reflexivity.
  - intros c _. reflexivity.
Defined.

Lemma database_required_before_use_witness :
  Document_db User (empty_world (Id:=ObjectId) [])
  = (inl (AttributeError "Accessing database without using it first."), empty_world (Id:=ObjectId) [])
  ∧ Document_collection User (empty_world (Id:=ObjectId) [])
    = (inl (AttributeError "Accessing database without using it first."), empty_world (Id:=ObjectId) [])
  ∧ bound_collection User (empty_world (Id:=ObjectId) [])
    = (inl (AttributeError "Accessing database without using it first."), empty_world (Id:=ObjectId) []).
Proof.
  apply (database_required_before_use (empty_world (Id:=ObjectId) []) User
           (mkMongo (Some "users") None (Some SECONDARY) None None)).
  - reflexivity.
  - intros c _. reflexivity.
Defined.

Lemma collection_is_stable_witness :
  let w := after (Document_use Document (Some 1)) (empty_world (Id:=ObjectId) []) in
  let w1 := after (Document_collection User) w in
  class_db w User = Some (database users_collection)
  ∧ Document_collection User w1 = (inr (Some users_collection), w1)
  ∧ same_heap w w1.
Proof.
  intros w w1.
  apply (collection_is_stable w User [Document_id; BaseModel_id; object_id]
           users_collection w1).
  - reflexivity.
  - vm_compute. reflexivity.
Defined.

Lemma use_then_collection_witness :
  ∃ w1 w2, Document_use User (Some 2) (empty_world (Id:=ObjectId) []) = (inr (), w1)
           ∧ Document_collection User w1
             = (inr (Some (get_collection 2 "users" None (Some SECONDARY) None None)), w2)
           ∧ w_classes w2 !! c_id User
             = Some (mkClassAttrs (Some 2)
                       (Some (get_collection 2 "users" None (Some SECONDARY) None None))).
Proof.
  apply (use_then_collection (empty_world (Id:=ObjectId) []) User
           (mkMongo (Some "users") None (Some SECONDARY) None None) "users" 2
           [Document_id; BaseModel_id; object_id]).
  - reflexivity.
  - reflexivity.
  - reflexivity.
  - intros old Hold. vm_compute in Hold. discriminate Hold.
Defined.

Lemma mongo_filters_by_field_name_witness :
  (∀ k v, Document_mongo User (stored_ada (Oid 7)) (Some {["age"]}) None !! k = Some v
          ↔ ∃ name, (name, v) ∈ dict_items (stored_ada (Oid 7))
                    ∧ dict_key (model_fields User) name = k
                    ∧ allowed_key (Some {["age"]}) None name = true
                    ∧ holds_default (model_fields User) name v = false)
  ∧ Document_mongo User (stored_ada (Oid 7)) (Some {["age"]}) None
    ⊆ Document_mongo User (stored_ada (Oid 7)) None None.
Proof.
  apply (mongo_filters_by_field_name User (stored_ada (Oid 7)) (Some {["age"]}) None).
  decide_closed.
Defined.

Lemma foreign_bases_are_ignored_witness :
  merged_mongo [BaseModel; Document] User_namespace
  = inherit_class "Mongo" (ns_Mongo User_namespace) MongoBase.
Proof.
  apply (foreign_bases_are_ignored [BaseModel; Document] User_namespace).
  repeat constructor.
Defined.

Lemma delete_reports_single_deletion_witness :
  let w := query_world (Oid 7) [Deleted (mkDeleteResult 1)] in
  ∃ w', Document_delete 0 [] w = (inr (bool_decide (1 = 1)%Z), w')
        ∧ dict_of w' 0 = Some (stored_ada (Oid 7))
        ∧ id_of w' 0 = Some (Oid 7)
        ∧ w_objects w' = w_objects w ∧ w_dicts w' = w_dicts w.
Proof.
  intros w.
  apply (delete_reports_single_deletion w 0 [] (mkInstance User 0) (stored_ada (Oid 7))
           users_collection (after (bound_collection User) w) (mkDeleteResult 1) []).
  - reflexivity.
  - reflexivity.
  - vm_compute. reflexivity.
  - reflexivity.
Defined.

Lemma find_one_maps_nothing_to_None_witness :
  let w := pair_world (Oid 7) [Found (Some ∅)] in
  ∃ w', Document_find_one User (Some {["name" := VStr "bob"]}) [] w = (inr None, w')
        ∧ w_objects w' = w_objects w ∧ w_dicts w' = w_dicts w.
Proof.
  intros w.
  destruct (find_one_maps_nothing_to_None w User (Some {["name" := VStr "bob"]}) []
              users_collection (after (bound_collection User) w) (Some ∅) [])
    as [Hnothing _].
  - vm_compute. reflexivity.
  - reflexivity.
  - apply Hnothing. by right.
Defined.

Lemma find_one_and_modify_map_nothing_to_None_witness :
  let w := query_world (Oid 7) [Fetched None] in
  ∃ w', Document_find_one_and_delete User (Some {["name" := VStr "bob"]}) [] w
        = (inr None, w')
        ∧ w_objects w' = w_objects w ∧ w_dicts w' = w_dicts w.
Proof.
  intros w.
  destruct (find_one_and_modify_map_nothing_to_None w User
              (Some {["name" := VStr "bob"]}) ∅ ∅ []
              users_collection (after (bound_collection User) w) None [])
    as [Hdelete _].
  - vm_compute. reflexivity.
  - destruct Hdelete as [Hnothing _]; [reflexivity|]. apply Hnothing. by left.
Defined.

Lemma insert_many_binds_in_order_witness :
  let w := query_world (Oid 7) [InsertedMany (mkInsertManyResult [Oid 50; Oid 51])] in
  ∃ w', Document_insert_many User [1; 0] [] w = (inr (), w')
        ∧ w_objects w' = w_objects w
        ∧ (∀ k r i, [1; 0] !! k = Some r → [Oid 50; Oid 51] !! k = Some i →
                    id_of w' r = Some i
                    ∧ d_fields <$> dict_of w' r = d_fields <$> dict_of w r)
        ∧ (∀ k r, [1; 0] !! k = Some r → length [Oid 50; Oid 51] ≤ k →
                  dict_of w' r = dict_of w r).
Proof.
  intros w.
  destruct (insert_many_binds_in_order w User [1; 0] []
              [Document_mongo User (ada (Id:=ObjectId)) None None; Document_mongo User (stored_ada (Oid 7)) None None]
              users_collection (after (bound_collection User) w)) as [Hok _].
  - repeat constructor.
  - decide_closed.
  - vm_compute. reflexivity.
  - apply (Hok (mkInsertManyResult [Oid 50; Oid 51]) []). reflexivity.
Defined.

Lemma find_yields_new_instances_witness :
  let w := query_world (Oid 7) [Opened 5; Fetched (Some (fetched_ada (Oid 7))); Fetched None] in
  let w' := after (Document_find_take 3 User None []) w in
  length [2] ≤ 3 ∧ NoDup [2] ∧ Forall (yielded User w w') [2] ∧ keeps_objects w w'.
Proof.
  intros w w'.
  apply (find_yields_new_instances 3 User None [] w [2] w').
  vm_compute. reflexivity.
Defined.

Lemma update_with_reload_witness :
  let w := pair_world (Oid 7) [Updated (mkUpdateResult 0 0 None); Found None] in
  let spec : UpdateSpec := {["$set" := {["years" := VInt 40]}]} in
  ∃ msg w', Document_update 0 spec true [] w = (inl (TypeError msg), w')
            ∧ w_log w'
              = w_log w ++ [UpdateOne users_collection {["_id" := VOid (Oid 7)]} spec [];
                            FindOne users_collection (Some {["_id" := VOid (Oid 7)]}) []]
            ∧ dict_of w' 0 = Some (stored_ada (Oid 7)).
Proof.
  intros w spec.
  destruct (update_with_reload w 0 spec [] (mkInstance User 0) (stored_ada (Oid 7)) (Oid 7)
              [Document_id; BaseModel_id; object_id] users_collection
              (after (bound_collection User) w) (mkUpdateResult 0 0 None) [Found None])
    as [Hgone _].
  - reflexivity.
  - reflexivity.
  - reflexivity.
  - reflexivity.
  - vm_compute. reflexivity.
  - reflexivity.
  - apply (Hgone []). reflexivity.
Defined.

Lemma reload_failures_keep_state_witness :
  let w := pair_world (Oid 7) [Found (Some {["_id" := VOid (Oid 7)]})] in
  ∃ w', Document_reload 0 [] w = (inl (ValidationError "name"), w')
        ∧ w_objects w' = w_objects w ∧ w_dicts w' = w_dicts w
        ∧ dict_of w' 0 = Some (stored_ada (Oid 7)).
Proof.
  intros w.
  destruct (reload_failures_keep_state w 0 [] (mkInstance User 0) (stored_ada (Oid 7)))
    as [_ Hinvalid]; [reflexivity|reflexivity|].
  apply (Hinvalid (Oid 7) users_collection (after (bound_collection User) w)
           {["_id" := VOid (Oid 7)]} (ValidationError "name") []).
  - reflexivity.
  - vm_compute. reflexivity.
  - reflexivity.
  - vm_compute. reflexivity.
Defined.

Lemma find_one_and_replace_failures_keep_state_witness :
  let w := pair_world (Oid 7) [Found None] in
  ∃ w', Document_find_one_and_replace User {["name" := VStr "bob"]} (inr 1) true [] w
        = (inr None, w')
        ∧ w_objects w' = w_objects w ∧ w_dicts w' = w_dicts w.
Proof.
  intros w.
  destruct (find_one_and_replace_failures_keep_state w User {["name" := VStr "bob"]}
              (inr 1) true [] (Document_mongo User (ada (Id:=ObjectId)) None None) users_collection
              (after (bound_collection User) w)) as [Hnone _].
  - vm_compute. reflexivity.
  - vm_compute. reflexivity.
  - apply (Hnone []). reflexivity.
Defined.

Lemma replace_touches_only_the_identifier_witness :
  let w := pair_world (Oid 7) [Updated (mkUpdateResult 0 0 (Some (Oid 99)))] in
  ∃ w', Document_replace 0 1 [] w = (inr 1, w')
        ∧ w_objects w' = w_objects w
        ∧ d_fields <$> dict_of w' 1 = Some (d_fields (ada (Id:=ObjectId)))
        ∧ (∀ r, dict_address w r ≠ dict_address w 1 → dict_of w' r = dict_of w r).
Proof.
  intros w.
  destruct (replace_touches_only_the_identifier w 0 1 [] (mkInstance User 0)
              (mkInstance User 1) (stored_ada (Oid 7)) ada users_collection
              (after (bound_collection User) w)) as [Hok _].
  - reflexivity.
  - reflexivity.
  - reflexivity.
  - reflexivity.
  - vm_compute. reflexivity.
  - apply (Hok (mkUpdateResult 0 0 (Some (Oid 99))) []). reflexivity.
Defined.

Lemma insert_then_mongo_carries_identifier_witness :
  let w := ada_world [Inserted (mkInsertOneResult (Oid 42))] in
  ∃ w', Document_insert 0 [] w = (inr (), w')
        ∧ document_of w' 0
          = Some (<["_id" := VOid (Oid 42)]> (Document_mongo User (ada (Id:=ObjectId)) None None)).
Proof.
  intros w.
  change (VOid (Oid 42)) with (ident_value (inserted_id (mkInsertOneResult (Oid 42)))).
  apply (insert_then_mongo_carries_identifier w 0 [] (mkInstance User 0) ada
           users_collection (after (bound_collection User) w)
           (mkInsertOneResult (Oid 42)) []).
  - reflexivity.
  - reflexivity.
  - decide_closed.
  - vm_compute. reflexivity.
  - reflexivity.
Defined.
